(** * Master volume-growth controller and volume RPCs (weed/server/master_grpc_server_volume.go)

    A shallow embedding of the master's gRPC handlers [LookupVolume],
    [Statistics], [VolumeGrow], of [DoAutomaticVolumeGrow], and of the two
    goroutines started by [ProcessGrowRequest] (the scanner and the
    request-stream dispatcher), together with the properties the
    specification states about them. *)

From Stdlib Require Import ZArith Lia Ascii.
From stdpp Require Import base gmap strings list.

Open Scope Z_scope.

(** ** Go machine integers *)

Module GoInt.

(** Conversion to [uint32], [uint64]: reduction modulo the width. *)
Definition uint32 (z : Z) : Z := z mod 2 ^ 32.
Definition uint64 (z : Z) : Z := z mod 2 ^ 64.

(** Conversion to [int64]: two's complement wrap-around. *)
Definition int64 (z : Z) : Z := (z + 2 ^ 63) mod 2 ^ 64 - 2 ^ 63.

(** [a * b] at type [uint32] and at type [int64]. *)
Definition mul_uint32 (a b : Z) : Z := uint32 (a * b).
Definition mul_int64 (a b : Z) : Z := int64 (a * b).

End GoInt.

(** ** Go strings *)

Module strings.

(** [strings.Index(s, sep)]: byte index of the first occurrence of [sep]
    in [s], or [-1]. *)
Definition Index (s sep : string) : Z :=
  match String.index 0 sep s with
  | Some n => Z.of_nat n
  | None => -1
  end.

(** The slice expression [s[0:hi]] for [0 <= hi <= len(s)]. *)
Definition slice_to (s : string) (hi : Z) : string :=
  String.substring 0 (Z.to_nat hi) s.

End strings.

(** ** Errors

    [raft.NotLeaderError], the errors of the replication and TTL parsers,
    and the two [fmt.Errorf] values built in [VolumeGrow]. *)

Inductive error : Type :=
| NotLeaderError
| ParseError (msg : string)
| ErrOnlyVolumesLeft (left_ wanted : Z)
    (* "only %d volumes left, not enough for %d" *)
| ErrDataCenterNotFound (dc : string)
    (* "data center %v not found in topology" *)
| GrowError (msg : string).

(** ** Messages of package [operation] and [master_pb] used by [LookupVolume] *)

Module operation.
Record Location : Type := {
  Url : string;
  PublicUrl : string;
  DataCenter : string;
  GrpcPort : Z  (* int *)
}.
Record LookupResult : Type := {
  VolumeOrFileId : string;
  Locations : list Location;
  Error : string
}.
End operation.

Module master_pb.
Record Location : Type := {
  Url : string;
  PublicUrl : string;
  DataCenter : string;
  GrpcPort : Z  (* uint32 *)
}.
Record VolumeIdLocation : Type := {
  VolumeOrFileId : string;
  Locations : list Location;
  Error : string;
  Auth : string
}.
Record LookupVolumeRequest : Type := {
  VolumeOrFileIds : list string;
  Collection : string
}.
Record LookupVolumeResponse : Type := {
  VolumeIdLocations : list VolumeIdLocation
}.
End master_pb.

(** ** LookupVolume *)

Section LookupVolume.

(** [security.GenJwtForVolumeServer(signingKey, expiresAfterSec, fileId)]
    and [ms.lookupVolumeId(vids, collection)] live outside this file; the
    handler is verified for every such pair of functions. *)
Variable GenJwtForVolumeServer : string -> Z -> string -> string.
Variable lookupVolumeId :
  list string -> string -> gmap string operation.LookupResult.

(** [ms.guard.SigningKey], [ms.guard.ExpiresAfterSec]. *)
Variable SigningKey : string.
Variable ExpiresAfterSec : Z.

(** The literal [&master_pb.Location{...}] built from [loc]. *)
Definition convert_location (loc : operation.Location) : master_pb.Location :=
  {| master_pb.Url := operation.Url loc;
     master_pb.PublicUrl := operation.PublicUrl loc;
     master_pb.DataCenter := operation.DataCenter loc;
     master_pb.GrpcPort := GoInt.uint32 (operation.GrpcPort loc) |}.

(** The inner loop over [result.Locations]. *)
Definition convert_locations (ls : list operation.Location)
  : list master_pb.Location :=
  fold_left (fun locations loc => locations ++ [convert_location loc]) ls [].

(** One iteration of the loop over [req.VolumeOrFileIds]. *)
Definition lookup_iteration
    (volumeLocations : gmap string operation.LookupResult)
    (acc : list master_pb.VolumeIdLocation) (volumeOrFileId : string)
  : list master_pb.VolumeIdLocation :=
  let vid := volumeOrFileId in
  let commaSep := strings.Index vid "," in
  let vid := if 0 <? commaSep then strings.slice_to vid commaSep else vid in
  match volumeLocations !! vid with
  | Some result =>
      let locations := convert_locations (operation.Locations result) in
      let auth :=
        if 0 <? commaSep
        then GenJwtForVolumeServer SigningKey ExpiresAfterSec
               (operation.VolumeOrFileId result)
        else "" in
      acc ++
        [ {| master_pb.VolumeOrFileId := operation.VolumeOrFileId result;
             master_pb.Locations := locations;
             master_pb.Error := operation.Error result;
             master_pb.Auth := auth |} ]
  | None => acc
  end.

Definition LookupVolume (req : master_pb.LookupVolumeRequest)
  : master_pb.LookupVolumeResponse * option error :=
  let volumeLocations :=
    lookupVolumeId (master_pb.VolumeOrFileIds req) (master_pb.Collection req) in
  let resp :=
    fold_left (lookup_iteration volumeLocations)
      (master_pb.VolumeOrFileIds req) [] in
  ({| master_pb.VolumeIdLocations := resp |}, None).

(** *** The contract in the words of the specification

    "Splits each input at the first [,] to extract the vid; attaches a
    signed token when the input was a full file id": the vid is whatever
    precedes the first comma, and a token is attached whenever the input
    contains a comma. *)
Definition spec_vid (s : string) : string :=
  match String.index 0 "," s with
  | Some n => String.substring 0 n s
  | None => s
  end.

Definition spec_is_file_id (s : string) : bool :=
  match String.index 0 "," s with Some _ => true | None => false end.

Definition entry_of (result : operation.LookupResult) (auth : string)
  : master_pb.VolumeIdLocation :=
  {| master_pb.VolumeOrFileId := operation.VolumeOrFileId result;
     master_pb.Locations := convert_locations (operation.Locations result);
     master_pb.Error := operation.Error result;
     master_pb.Auth := auth |}.

Definition spec_entry
    (volumeLocations : gmap string operation.LookupResult) (s : string)
  : option master_pb.VolumeIdLocation :=
  match volumeLocations !! spec_vid s with
  | Some result =>
      Some (entry_of result
              (if spec_is_file_id s
               then GenJwtForVolumeServer SigningKey ExpiresAfterSec
                      (operation.VolumeOrFileId result)
               else ""))
  | None => None
  end.

Definition LookupVolume_spec (req : master_pb.LookupVolumeRequest)
  : master_pb.LookupVolumeResponse * option error :=
  let volumeLocations :=
    lookupVolumeId (master_pb.VolumeOrFileIds req) (master_pb.Collection req) in
  ({| master_pb.VolumeIdLocations :=
        omap (spec_entry volumeLocations) (master_pb.VolumeOrFileIds req) |},
   None).

(** *** What the handler does: file-id treatment needs [commaSep > 0] *)
Definition is_file_id (s : string) : bool := 0 <? strings.Index s ",".

Definition extracted_vid (s : string) : string :=
  if is_file_id s then strings.slice_to s (strings.Index s ",") else s.

Definition code_entry
    (volumeLocations : gmap string operation.LookupResult) (s : string)
  : option master_pb.VolumeIdLocation :=
  match volumeLocations !! extracted_vid s with
  | Some result =>
      Some (entry_of result
              (if is_file_id s
               then GenJwtForVolumeServer SigningKey ExpiresAfterSec
                      (operation.VolumeOrFileId result)
               else ""))
  | None => None
  end.

End LookupVolume.

(** ** Data of packages [super_block], [needle], [types] and [topology] *)

Module super_block.
(** Modelled from the spec: the type declaration of [ReplicaPlacement] is
    outside this file; it is the triple (otherDCs, otherRacksInSameDC,
    otherNodesInSameRack) and its copy count is [a + b + c + 1]. *)
Record ReplicaPlacement : Type := {
  DiffDataCenterCount : Z;
  DiffRackCount : Z;
  SameRackCount : Z
}.
Definition GetCopyCount (rp : ReplicaPlacement) : Z :=
  DiffDataCenterCount rp + DiffRackCount rp + SameRackCount rp + 1.
End super_block.

Module needle.
(** Modelled from the spec: a TTL is a pair (unit, count). *)
Record TTL : Type := { Count : Z; Unit : Z }.
End needle.

Module types.
Definition DiskType : Type := string.
End types.

#[global] Instance ReplicaPlacement_eq_dec : EqDecision super_block.ReplicaPlacement.
Proof. solve_decision. Defined.
#[global] Instance TTL_eq_dec : EqDecision needle.TTL.
Proof. solve_decision. Defined.

Module topology.

(** The fields of [VolumeGrowOption] as [VolumeGrow] fills them in. *)
Record VolumeGrowOption : Type := {
  Collection : string;
  ReplicaPlacement : super_block.ReplicaPlacement;
  Ttl : needle.TTL;
  DiskType : types.DiskType;
  Preallocate : Z;
  DataCenter : string;
  Rack : string;
  DataNode : string;
  MemoryMapMaxSizeMb : Z
}.

Record VolumeGrowRequest : Type := {
  Option : VolumeGrowOption;
  Count : Z;  (* uint32 *)
  Force : bool;
  Reason : string
}.

(** The immutable identity of a volume layout, and the pair
    [(Collection, VolumeLayout)] that [ListVolumeLayoutCollections]
    yields. Two lookups through [GetVolumeLayout] with the same four
    components give the same layout object. *)
Record VolumeLayout : Type := {
  rp : super_block.ReplicaPlacement;
  ttl : needle.TTL;
  diskType : types.DiskType
}.

Record VolumeLayoutCollection : Type := {
  vlcCollection : string;
  vlcVolumeLayout : VolumeLayout
}.

Definition GetVolumeLayout (collection : string)
    (rp : super_block.ReplicaPlacement) (ttl : needle.TTL)
    (diskType : types.DiskType) : VolumeLayoutCollection :=
  {| vlcCollection := collection;
     vlcVolumeLayout := {| rp := rp; ttl := ttl; diskType := diskType |} |}.

(** Modelled from the spec: [ToGrowOption] is outside this file; it
    produces the grow option of a layout, carrying its collection,
    replica placement, TTL and disk type and no locality pin. *)
Definition ToGrowOption (vlc : VolumeLayoutCollection) : VolumeGrowOption :=
  {| Collection := vlcCollection vlc;
     ReplicaPlacement := rp (vlcVolumeLayout vlc);
     Ttl := ttl (vlcVolumeLayout vlc);
     DiskType := diskType (vlcVolumeLayout vlc);
     Preallocate := 0;
     DataCenter := "";
     Rack := "";
     DataNode := "";
     MemoryMapMaxSizeMb := 0 |}.

(** The assignment [volumeGrowOption.DataCenter = dc]. *)
Definition set_DataCenter (o : VolumeGrowOption) (dc : string)
  : VolumeGrowOption :=
  {| Collection := Collection o;
     ReplicaPlacement := ReplicaPlacement o;
     Ttl := Ttl o;
     DiskType := DiskType o;
     Preallocate := Preallocate o;
     DataCenter := dc;
     Rack := Rack o;
     DataNode := DataNode o;
     MemoryMapMaxSizeMb := MemoryMapMaxSizeMb o |}.

End topology.

#[global] Instance VolumeGrowOption_eq_dec : EqDecision topology.VolumeGrowOption.
Proof. solve_decision. Defined.
#[global] Instance VolumeLayout_eq_dec : EqDecision topology.VolumeLayout.
Proof. solve_decision. Defined.
#[global] Instance VolumeLayoutCollection_eq_dec :
  EqDecision topology.VolumeLayoutCollection.
Proof. solve_decision. Defined.

(** Modelled from the spec: [VolumeGrowRequest.Equals] is outside this file;
    two requests are equal iff their Options compare equal, Count and Reason
    being informational only. *)
Definition Equals (a b : topology.VolumeGrowRequest) : bool :=
  bool_decide (topology.Option a = topology.Option b).

(** ** Messages of the growth path and of the two leader-only RPCs *)

(** Modelled from the spec: a [NewVolumeLocations] record is
    [{vid, replicas:[{url, publicUrl, dataCenter, grpcPort}]}]. *)
Record VolumeLocation : Type := {
  vid : Z;
  replicas : list master_pb.Location
}.

Record KeepConnectedResponse : Type := {
  kcVolumeLocation : VolumeLocation
}.

Record AssignRequest : Type := {
  arReplication : string;
  arCollection : string;
  arTtl : string;
  arDiskType : string;
  arDataCenter : string;
  arRack : string;
  arDataNode : string;
  arMemoryMapMaxSizeMb : Z;   (* uint32 *)
  arWritableVolumeCount : Z   (* uint32 *)
}.

Record VolumeGrowResponse : Type := EmptyVolumeGrowResponse {}.

Record StatisticsRequest : Type := {
  srReplication : string;
  srCollection : string;
  srTtl : string;
  srDiskType : string
}.

Record StatisticsResponse : Type := {
  TotalSize : Z;  (* uint64 *)
  UsedSize : Z;
  FileCount : Z
}.

Record VolumeLayoutStats : Type := {
  statUsedSize : Z;
  statFileCount : Z
}.

(** ** Observable effects

    Every call that changes the topology, a layout's guard, the request
    stream, the in-flight filter, or that reaches a client is recorded. *)

Record ReqRef : Type := {
  addr : nat;                          (* the pointer *)
  deref : topology.VolumeGrowRequest   (* what it points to *)
}.

#[global] Instance VolumeGrowRequest_eq_dec : EqDecision topology.VolumeGrowRequest.
Proof. solve_decision. Defined.
#[global] Instance ReqRef_eq_dec : EqDecision ReqRef.
Proof. solve_decision. Defined.

Inductive Event : Type :=
| EvAutomaticGrowByType (option : topology.VolumeGrowOption) (count : Z)
| EvBroadcast (resp : KeepConnectedResponse)
| EvAddGrowRequest (vl : topology.VolumeLayoutCollection)
| EvDoneGrowRequest (vl : topology.VolumeLayoutCollection) (r : ReqRef)
| EvSend (r : ReqRef)
| EvReceive (r : ReqRef)
| EvFilterStore (r : ReqRef)
| EvFilterDelete (r : ReqRef).

(** A computation that appends to the log of effects. *)
Definition Eff (A : Type) : Type := (A * list Event)%type.

Definition ret {A} (a : A) : Eff A := (a, []).
Definition bind {A B} (m : Eff A) (k : A -> Eff B) : Eff B :=
  let '(a, l1) := m in
  let '(b, l2) := k a in
  (b, l1 ++ l2).
Definition emit (e : Event) : Eff unit := (tt, [e]).

Notation "m ;;; k" := (bind m (fun _ => k))
  (at level 100, right associativity).

(** [for _, x := range xs { body x }]. *)
Fixpoint for_range {A} (xs : list A) (body : A -> Eff unit) : Eff unit :=
  match xs with
  | [] => ret tt
  | x :: xs' => body x ;;; for_range xs' body
  end.

(** ** The master server as the handlers see it *)

Record Topology : Type := {
  IsLeader : bool;
  AvailableSpaceFor : topology.VolumeGrowOption -> Z;  (* int64 *)
  DataCenterExists : string -> bool;
  GetMaxVolumeCount : Z;  (* Topo.GetDiskUsages().GetMaxVolumeCount(), int64 *)
  LayoutStats : topology.VolumeLayoutCollection -> VolumeLayoutStats
}.

Record MasterOption : Type := {
  DefaultReplicaPlacement : string;
  VolumeSizeLimitMB : Z  (* uint *)
}.

Record MasterServer : Type := {
  Topo : Topology;
  option_ : MasterOption;
  preallocateSize : Z;
  (** the outcome of [ms.vg.AutomaticGrowByType(option, _, ms.Topo, count)] *)
  AutomaticGrowByType :
    topology.VolumeGrowOption -> Z -> list VolumeLocation * option error
}.

Inductive result (A : Type) : Type :=
| Ok (a : A)
| Err (e : error).
Arguments Ok {A} a.
Arguments Err {A} e.

(** ** DoAutomaticVolumeGrow *)

Definition DoAutomaticVolumeGrow
    (grow : topology.VolumeGrowOption -> Z -> list VolumeLocation * option error)
    (req : topology.VolumeGrowRequest) : Eff unit :=
  emit (EvAutomaticGrowByType (topology.Option req) (topology.Count req)) ;;;
  let '(newVidLocations, err) :=
    grow (topology.Option req) (topology.Count req) in
  match err with
  | Some _ => ret tt
  | None =>
      for_range newVidLocations
        (fun newVidLocation =>
           emit (EvBroadcast {| kcVolumeLocation := newVidLocation |}))
  end.

Section Handlers.

(** [super_block.NewReplicaPlacementFromString], [needle.ReadTTL] and
    [types.ToDiskType] are outside this file. *)
Variable NewReplicaPlacementFromString :
  string -> result super_block.ReplicaPlacement.
Variable ReadTTL : string -> result needle.TTL.
Variable ToDiskType : string -> types.DiskType.

(** *** Statistics *)
Definition Statistics (ms : MasterServer) (req : StatisticsRequest)
  : option StatisticsResponse * option error :=
  if negb (IsLeader (Topo ms)) then (None, Some NotLeaderError) else
  let replication :=
    if String.eqb (srReplication req) ""
    then DefaultReplicaPlacement (option_ ms)
    else srReplication req in
  match NewReplicaPlacementFromString replication with
  | Err err => (None, Some err)
  | Ok replicaPlacement =>
      match ReadTTL (srTtl req) with
      | Err err => (None, Some err)
      | Ok ttl =>
          let volumeLayout :=
            topology.GetVolumeLayout (srCollection req) replicaPlacement ttl
              (ToDiskType (srDiskType req)) in
          let stats := LayoutStats (Topo ms) volumeLayout in
          let totalSize :=
            GoInt.mul_int64
              (GoInt.mul_int64
                 (GoInt.mul_int64 (GetMaxVolumeCount (Topo ms))
                    (GoInt.int64 (VolumeSizeLimitMB (option_ ms))))
                 1024)
              1024 in
          (Some {| TotalSize := GoInt.uint64 totalSize;
                   UsedSize := statUsedSize stats;
                   FileCount := statFileCount stats |},
           None)
      end
  end.

(** *** VolumeGrow *)
Definition VolumeGrow (ms : MasterServer) (req : AssignRequest)
  : Eff (option VolumeGrowResponse * option error) :=
  if negb (IsLeader (Topo ms)) then ret (None, Some NotLeaderError) else
  let replication :=
    if String.eqb (arReplication req) ""
    then DefaultReplicaPlacement (option_ ms)
    else arReplication req in
  match NewReplicaPlacementFromString replication with
  | Err err => ret (None, Some err)
  | Ok replicaPlacement =>
      match ReadTTL (arTtl req) with
      | Err err => ret (None, Some err)
      | Ok ttl =>
          let volumeGrowOption :=
            {| topology.Collection := arCollection req;
               topology.ReplicaPlacement := replicaPlacement;
               topology.Ttl := ttl;
               topology.DiskType := ToDiskType (arDiskType req);
               topology.Preallocate := preallocateSize ms;
               topology.DataCenter := arDataCenter req;
               topology.Rack := arRack req;
               topology.DataNode := arDataNode req;
               topology.MemoryMapMaxSizeMb := arMemoryMapMaxSizeMb req |} in
          let volumeGrowRequest :=
            {| topology.Option := volumeGrowOption;
               topology.Count := arWritableVolumeCount req;
               topology.Force := true;
               topology.Reason := "grpc volume grow" |} in
          let replicaCount :=
            GoInt.int64
              (GoInt.mul_uint32 (arWritableVolumeCount req)
                 (GoInt.uint32 (super_block.GetCopyCount replicaPlacement))) in
          if AvailableSpaceFor (Topo ms) volumeGrowOption <? replicaCount
          then
            ret (None,
                 Some (ErrOnlyVolumesLeft
                         (AvailableSpaceFor (Topo ms) volumeGrowOption)
                         replicaCount))
          else
            (* [err] is assigned here and never read again *)
            let err : option error :=
              if negb (DataCenterExists (Topo ms)
                         (topology.DataCenter volumeGrowOption))
              then Some (ErrDataCenterNotFound
                           (topology.DataCenter volumeGrowOption))
              else None in
            DoAutomaticVolumeGrow (AutomaticGrowByType ms) volumeGrowRequest ;;;
            ret (Some EmptyVolumeGrowResponse, None)
      end
  end.

End Handlers.

(** ** ProcessGrowRequest: the scanner, the dispatcher and the growth tasks

    The goroutines started by [ProcessGrowRequest] run concurrently over the
    layouts' guards, the request channel and the dispatcher's [sync.Map]
    filter. Each is cut at its blocking calls and at its accesses to shared
    state; an execution is an interleaving of their steps, chosen by a list
    of [Action]s that also carry what the environment answers ([IsLeader],
    the policy predicates, the outcome of a growth). *)

Module Pipeline.

Abbreviation VLC := topology.VolumeLayoutCollection.

(** [vl := ms.Topo.GetVolumeLayout(option.Collection, option.ReplicaPlacement,
    option.Ttl, option.DiskType)] *)
Definition layout_of (req : topology.VolumeGrowRequest) : VLC :=
  let option := topology.Option req in
  topology.GetVolumeLayout (topology.Collection option)
    (topology.ReplicaPlacement option) (topology.Ttl option)
    (topology.DiskType option).

(** Where the scanner goroutine stands. *)
Inductive ScannerPC : Type :=
| ScanTop
    (* head of the outer [for]: about to test [IsLeader] *)
| ScanLayouts (dcs : list string) (vlcs : list VLC)
    (* head of the loop over [ListVolumeLayoutCollections()] *)
| ScanDataCenters (vlc : VLC) (todo : list string)
    (dcs : list string) (vlcs : list VLC)
    (* head of the loop over [dcs] for layout [vlc] *)
| ScanSend (r : ReqRef) (k : ScannerPC).
    (* [AddGrowRequest] done, blocked on [volumeGrowthRequestChan <- r] *)

Inductive DiscardReason : Type := NotLeader | Duplicate | NoLongerNeeded.

(** Where the dispatcher goroutine stands. *)
Inductive DispatcherPC : Type :=
| DispRecv
    (* blocked on [<-ms.volumeGrowthRequestChan] *)
| DispDiscard (why : DiscardReason) (r : ReqRef)
    (* sleeping before [vl.DoneGrowRequest(); continue] *)
| DispAccept (r : ReqRef).
    (* about to [filter.Store(req, nil)] and launch the goroutine *)

(** Where a launched goroutine stands:
    [DoAutomaticVolumeGrow(req); vl.DoneGrowRequest(); filter.Delete(req)]. *)
Inductive TaskPC : Type := TaskGrow | TaskDone | TaskDelete.

Record State : Type := {
  leader : bool;                 (* what [ms.Topo.IsLeader()] answers now *)
  guard : VLC -> bool;           (* [growRequestInFlight] of each layout *)
  chan : list ReqRef;            (* [ms.volumeGrowthRequestChan], oldest first *)
  filter : gmap nat topology.VolumeGrowRequest;  (* keyed by pointer *)
  tasks : list (ReqRef * TaskPC);
  scanner : ScannerPC;
  dispatcher : DispatcherPC;
  next_addr : nat;               (* allocator of request objects *)
  trace : list Event
}.

Definition init : State :=
  {| leader := false; guard := fun _ => false; chan := []; filter := ∅;
     tasks := []; scanner := ScanTop; dispatcher := DispRecv;
     next_addr := 0%nat; trace := [] |}.

Definition with_leader (s : State) (b : bool) : State :=
  {| leader := b; guard := guard s; chan := chan s; filter := filter s;
     tasks := tasks s; scanner := scanner s; dispatcher := dispatcher s;
     next_addr := next_addr s; trace := trace s |}.

(** Modelled from the spec: the guard methods of [VolumeLayout] are outside
    this file. [growRequestInFlight] is a boolean; [AddGrowRequest] sets it
    (idempotent), [DoneGrowRequest] clears it, [HasGrowRequest] reads it. *)
Definition with_guard (s : State) (vl : VLC) (b : bool) : State :=
  {| leader := leader s;
     guard := fun k => if decide (k = vl) then b else guard s k;
     chan := chan s; filter := filter s;
     tasks := tasks s; scanner := scanner s; dispatcher := dispatcher s;
     next_addr := next_addr s; trace := trace s |}.
Definition AddGrowRequest (s : State) (vl : VLC) : State := with_guard s vl true.
Definition DoneGrowRequest (s : State) (vl : VLC) : State := with_guard s vl false.
Definition HasGrowRequest (s : State) (vl : VLC) : bool := guard s vl.

Definition with_chan (s : State) (c : list ReqRef) : State :=
  {| leader := leader s; guard := guard s; chan := c; filter := filter s;
     tasks := tasks s; scanner := scanner s; dispatcher := dispatcher s;
     next_addr := next_addr s; trace := trace s |}.

Definition with_filter (s : State) (f : gmap nat topology.VolumeGrowRequest)
  : State :=
  {| leader := leader s; guard := guard s; chan := chan s; filter := f;
     tasks := tasks s; scanner := scanner s; dispatcher := dispatcher s;
     next_addr := next_addr s; trace := trace s |}.

Definition with_tasks (s : State) (t : list (ReqRef * TaskPC)) : State :=
  {| leader := leader s; guard := guard s; chan := chan s; filter := filter s;
     tasks := t; scanner := scanner s; dispatcher := dispatcher s;
     next_addr := next_addr s; trace := trace s |}.

Definition with_scanner (s : State) (pc : ScannerPC) : State :=
  {| leader := leader s; guard := guard s; chan := chan s; filter := filter s;
     tasks := tasks s; scanner := pc; dispatcher := dispatcher s;
     next_addr := next_addr s; trace := trace s |}.

Definition with_dispatcher (s : State) (pc : DispatcherPC) : State :=
  {| leader := leader s; guard := guard s; chan := chan s; filter := filter s;
     tasks := tasks s; scanner := scanner s; dispatcher := pc;
     next_addr := next_addr s; trace := trace s |}.

(** [&topology.VolumeGrowRequest{...}]: a fresh object. *)
Definition alloc (s : State) : State :=
  {| leader := leader s; guard := guard s; chan := chan s; filter := filter s;
     tasks := tasks s; scanner := scanner s; dispatcher := dispatcher s;
     next_addr := S (next_addr s); trace := trace s |}.

Definition log (s : State) (evs : list Event) : State :=
  {| leader := leader s; guard := guard s; chan := chan s; filter := filter s;
     tasks := tasks s; scanner := scanner s; dispatcher := dispatcher s;
     next_addr := next_addr s; trace := trace s ++ evs |}.

(** What the topology answers to the scanner at one step. *)
Record ScanOracle : Type := {
  ListDataCenters : list string;
  ListVolumeLayoutCollections : list VLC;
  ShouldGrowVolumes : bool;
  ShouldGrowVolumesByDataNode : bool;
  GetLastGrowCount : Z
}.

Inductive Action : Type :=
| ActLeader (b : bool)
    (* leadership changes *)
| ActScan (o : ScanOracle)
    (* the scanner takes its next step *)
| ActDispatch (shouldGrow : bool)
    (* the dispatcher takes its next step; [shouldGrow] is what
       [vl.ShouldGrowVolumes] answers if it is asked *)
| ActTask (i : nat) (outcome : list VolumeLocation * option error).
    (* the [i]-th launched goroutine takes its next step; [outcome] is
       what [AutomaticGrowByType] returns if it is called *)

(** A send on a channel of capacity [cap] completes when the buffer has
    room; on an unbuffered channel ([cap = 0]) it completes when the
    receiver is waiting, and the value is then in transit to it. *)
Definition can_send (cap : nat) (s : State) : bool :=
  match cap with
  | O => match dispatcher s, chan s with
         | DispRecv, [] => true
         | _, _ => false
         end
  | S _ => (length (chan s) <? cap)%nat
  end.

Definition scan_step (cap : nat) (o : ScanOracle) (s : State) : option State :=
  match scanner s with
  | ScanTop =>
      if negb (leader s) then Some s  (* [continue] *)
      else Some (with_scanner s
                   (ScanLayouts (ListDataCenters o)
                      (ListVolumeLayoutCollections o)))
  | ScanLayouts dcs [] =>
      Some (with_scanner s ScanTop)  (* [time.Sleep], next iteration *)
  | ScanLayouts dcs (vlc :: vlcs) =>
      if HasGrowRequest s vlc then Some (with_scanner s (ScanLayouts dcs vlcs))
      else if ShouldGrowVolumes o then
        let r :=
          {| addr := next_addr s;
             deref := {| topology.Option := topology.ToGrowOption vlc;
                         topology.Count := GetLastGrowCount o;
                         topology.Force := false;
                         topology.Reason := "collection autogrow" |} |} in
        Some (log (alloc (with_scanner (AddGrowRequest s vlc)
                            (ScanSend r (ScanLayouts dcs vlcs))))
                [EvAddGrowRequest vlc])
      else Some (with_scanner s (ScanDataCenters vlc dcs dcs vlcs))
  | ScanDataCenters vlc [] dcs vlcs =>
      Some (with_scanner s (ScanLayouts dcs vlcs))
  | ScanDataCenters vlc (dc :: todo) dcs vlcs =>
      if ShouldGrowVolumesByDataNode o then
        let r :=
          {| addr := next_addr s;
             deref := {| topology.Option :=
                           topology.set_DataCenter (topology.ToGrowOption vlc) dc;
                         topology.Count := GetLastGrowCount o;
                         topology.Force := true;
                         topology.Reason := "per-dc autogrow" |} |} in
        Some (log (alloc (with_scanner (AddGrowRequest s vlc)
                            (ScanSend r (ScanDataCenters vlc todo dcs vlcs))))
                [EvAddGrowRequest vlc])
      else Some (with_scanner s (ScanDataCenters vlc todo dcs vlcs))
  | ScanSend r k =>
      if can_send cap s
      then Some (log (with_scanner (with_chan s (chan s ++ [r])) k) [EvSend r])
      else None
  end.

(** [filter.Range] with the closure that sets [found]. *)
Definition Range_found (f : gmap nat topology.VolumeGrowRequest)
    (req : topology.VolumeGrowRequest) : bool :=
  existsb (fun kv => Equals (snd kv) req) (map_to_list f).

Definition dispatch_step (shouldGrow : bool) (s : State) : option State :=
  match dispatcher s with
  | DispRecv =>
      match chan s with
      | [] => None
      | r :: rest =>
          let req := deref r in
          let s := log (with_chan s rest) [EvReceive r] in
          if negb (leader s) then Some (with_dispatcher s (DispDiscard NotLeader r))
          else
            let found := Range_found (filter s) req in
            if found then Some (with_dispatcher s (DispDiscard Duplicate r))
            else if negb (topology.Force req) && negb shouldGrow
            then Some (with_dispatcher s (DispDiscard NoLongerNeeded r))
            else Some (with_dispatcher s (DispAccept r))
      end
  | DispDiscard _ r =>
      let vl := layout_of (deref r) in
      Some (log (with_dispatcher (DoneGrowRequest s vl) DispRecv)
              [EvDoneGrowRequest vl r])
  | DispAccept r =>
      Some (log (with_dispatcher
                   (with_tasks
                      (with_filter s (<[addr r := deref r]> (filter s)))
                      (tasks s ++ [(r, TaskGrow)]))
                   DispRecv)
              [EvFilterStore r])
  end.

Definition task_step (i : nat) (outcome : list VolumeLocation * option error)
    (s : State) : option State :=
  match tasks s !! i with
  | None => None
  | Some (r, TaskGrow) =>
      let '(_, evs) := DoAutomaticVolumeGrow (fun _ _ => outcome) (deref r) in
      Some (log (with_tasks s (<[i := (r, TaskDone)]> (tasks s))) evs)
  | Some (r, TaskDone) =>
      let vl := layout_of (deref r) in
      Some (log (with_tasks (DoneGrowRequest s vl)
                   (<[i := (r, TaskDelete)]> (tasks s)))
              [EvDoneGrowRequest vl r])
  | Some (r, TaskDelete) =>
      Some (log (with_tasks (with_filter s (delete (addr r) (filter s)))
                   (delete i (tasks s)))
              [EvFilterDelete r])
  end.

Definition step (cap : nat) (a : Action) (s : State) : option State :=
  match a with
  | ActLeader b => Some (with_leader s b)
  | ActScan o => scan_step cap o s
  | ActDispatch shouldGrow => dispatch_step shouldGrow s
  | ActTask i outcome => task_step i outcome s
  end.

Fixpoint run (cap : nat) (acts : list Action) (s : State) : option State :=
  match acts with
  | [] => Some s
  | a :: acts' =>
      match step cap a s with
      | Some s' => run cap acts' s'
      | None => None
      end
  end.

Definition reachable (cap : nat) (s : State) : Prop :=
  exists acts, run cap acts init = Some s.

(** *** Where requests are *)

Fixpoint scan_held (pc : ScannerPC) : list ReqRef :=
  match pc with
  | ScanSend r k => r :: scan_held k
  | _ => []
  end.

Definition disp_held (pc : DispatcherPC) : list ReqRef :=
  match pc with
  | DispRecv => []
  | DispDiscard _ r => [r]
  | DispAccept r => [r]
  end.

(** A launched task that has not called [DoneGrowRequest] yet. *)
Definition task_running (t : ReqRef * TaskPC) : list ReqRef :=
  match snd t with
  | TaskDelete => []
  | _ => [fst t]
  end.

Definition running (ts : list (ReqRef * TaskPC)) : list ReqRef :=
  flat_map task_running ts.

(** Requests for which [AddGrowRequest] was called and the matching
    [DoneGrowRequest] was not: in the scanner's hand, in the channel, in
    the dispatcher's hand, or growing. *)
Definition pending (s : State) : list ReqRef :=
  scan_held (scanner s) ++ chan s ++ disp_held (dispatcher s)
    ++ running (tasks s).

Definition pending_for (vl : VLC) (s : State) : list ReqRef :=
  List.filter (fun r => bool_decide (layout_of (deref r) = vl)) (pending s).

(** Requests received by the dispatcher whose handling has not reached
    [DoneGrowRequest]. *)
Definition in_progress (s : State) : list ReqRef :=
  disp_held (dispatcher s) ++ running (tasks s).

(** Every request object that some goroutine still refers to. *)
Definition live (s : State) : list ReqRef :=
  scan_held (scanner s) ++ chan s ++ disp_held (dispatcher s)
    ++ map fst (tasks s).

(** Counting requests and effects. A request is singled out either by
    its address or as the object itself. *)
Definition same_addr (a : nat) (r : ReqRef) : bool := bool_decide (addr r = a).
Definition same_ref (r0 r : ReqRef) : bool := bool_decide (r = r0).

Definition occ (p : ReqRef -> bool) (l : list ReqRef) : nat :=
  length (List.filter p l).

Definition is_receive (p : ReqRef -> bool) (e : Event) : bool :=
  match e with EvReceive r => p r | _ => false end.
Definition is_done (p : ReqRef -> bool) (e : Event) : bool :=
  match e with EvDoneGrowRequest _ r => p r | _ => false end.

Definition count (p : Event -> bool) (tr : list Event) : nat :=
  length (List.filter p tr).

(** How often the dispatcher received, and how often [DoneGrowRequest]
    was called for, the requests selected by [p]. *)
Definition received (p : ReqRef -> bool) (s : State) : nat :=
  count (is_receive p) (trace s).
Definition done_calls (p : ReqRef -> bool) (s : State) : nat :=
  count (is_done p) (trace s).

(** A [DoneGrowRequest] is made on the layout its request resolves to. *)
Definition done_on_own_layout (e : Event) : Prop :=
  match e with
  | EvDoneGrowRequest vl r => vl = layout_of (deref r)
  | _ => True
  end.

(** *** Invariants of the pipeline *)

(** Requests the scanner has created and the dispatcher has not received. *)
Definition held_before_receive (s : State) : list ReqRef :=
  scan_held (scanner s) ++ chan s.

(** Every address is handed out once, and what was received is either
    released or still being handled. *)
Definition counted (s : State) : Prop :=
  (forall a,
      (occ (same_addr a) (held_before_receive s) + received (same_addr a) s
       = if (a <? next_addr s)%nat then 1 else 0)%nat)
  /\ (forall p,
        (done_calls p s + occ p (in_progress s) = received p s)%nat).

(** No two references to live requests share an address. *)
Definition unique (s : State) : Prop :=
  forall a,
    (occ (same_addr a) (live s) <= if (a <? next_addr s)%nat then 1 else 0)%nat.

(** A set guard has a pending request for its layout. *)
Definition guarded (s : State) : Prop :=
  forall vl, guard s vl = true ->
             exists r, r ∈ pending s /\ layout_of (deref r) = vl.

(** No two entries of the filter are equal; a request about to be stored
    equals none of them; launched tasks are in the filter. *)
Definition filter_ok (s : State) : Prop :=
  (forall a1 a2 r1 r2,
      filter s !! a1 = Some r1 -> filter s !! a2 = Some r2 ->
      Equals r1 r2 = true -> a1 = a2)
  /\ (forall r, dispatcher s = DispAccept r ->
                forall a' r', filter s !! a' = Some r' ->
                              Equals r' (deref r) = false)
  /\ (forall t, t ∈ tasks s -> filter s !! addr (fst t) = Some (deref (fst t))).

(** What holds in every reachable state. *)
Definition invariant (s : State) : Prop :=
  counted s /\ unique s /\ guarded s /\ filter_ok s
  /\ Forall done_on_own_layout (trace s).

End Pipeline.

(** ** Concrete servers, requests and schedules used to exercise the model *)

Module Sample.

Definition GenJwt (key : string) (expiresAfterSec : Z) (fileId : string)
  : string := "jwt:" +:+ fileId.

Definition node1 : operation.Location :=
  {| operation.Url := "10.0.0.1:8080"; operation.PublicUrl := "n1.example";
     operation.DataCenter := "dc1"; operation.GrpcPort := 18080 |}.

(** A lookup result in which the key [",abc"] is present. *)
Definition volumeLocations : gmap string operation.LookupResult :=
  {[ ",abc" := {| operation.VolumeOrFileId := ",abc";
                  operation.Locations := [node1];
                  operation.Error := "" |} ]}.

(** A lookup result for volumes 3 and 7. *)
Definition volumeLocations37 : gmap string operation.LookupResult :=
  <[ "3" := {| operation.VolumeOrFileId := "3";
               operation.Locations := [node1];
               operation.Error := "" |} ]>
  {[ "7" := {| operation.VolumeOrFileId := "7";
               operation.Locations := [node1; node1];
               operation.Error := "" |} ]}.

Definition NewReplicaPlacementFromString (t : string)
  : result super_block.ReplicaPlacement :=
  if String.eqb t "000" then
    Ok {| super_block.DiffDataCenterCount := 0;
          super_block.DiffRackCount := 0;
          super_block.SameRackCount := 0 |}
  else if String.eqb t "001" then
    Ok {| super_block.DiffDataCenterCount := 0;
          super_block.DiffRackCount := 0;
          super_block.SameRackCount := 1 |}
  else Err (ParseError t).

Definition ReadTTL (t : string) : result needle.TTL :=
  if String.eqb t "" then Ok {| needle.Count := 0; needle.Unit := 0 |}
  else Err (ParseError t).

Definition ToDiskType (t : string) : types.DiskType := t.

Definition newVolume : VolumeLocation :=
  {| vid := 8;
     replicas := [ {| master_pb.Url := "10.0.0.1:8080";
                      master_pb.PublicUrl := "n1.example";
                      master_pb.DataCenter := "dc1";
                      master_pb.GrpcPort := 18080 |} ] |}.

(** A leader whose topology has the single data center [dc1], ten free
    slots, and a grower that creates one volume per call. *)
Definition ms : MasterServer :=
  {| Topo := {| IsLeader := true;
                AvailableSpaceFor := fun _ => 10;
                DataCenterExists := fun dc => String.eqb dc "" || String.eqb dc "dc1";
                GetMaxVolumeCount := 30;
                LayoutStats := fun _ => {| statUsedSize := 4096;
                                           statFileCount := 12 |} |};
     option_ := {| DefaultReplicaPlacement := "000";
                   VolumeSizeLimitMB := 30000 |};
     preallocateSize := 0;
     AutomaticGrowByType := fun _ _ => ([newVolume], None) |}.

(** [VolumeGrow{replication="001", writableVolumeCount=1, dataCenter="dc9"}] *)
Definition grow_unknown_dc : AssignRequest :=
  {| arReplication := "001"; arCollection := ""; arTtl := "";
     arDiskType := ""; arDataCenter := "dc9"; arRack := ""; arDataNode := "";
     arMemoryMapMaxSizeMb := 0; arWritableVolumeCount := 1 |}.

(** [VolumeGrow{replication="001", writableVolumeCount=2147483648}] *)
Definition grow_huge : AssignRequest :=
  {| arReplication := "001"; arCollection := ""; arTtl := "";
     arDiskType := ""; arDataCenter := "dc1"; arRack := ""; arDataNode := "";
     arMemoryMapMaxSizeMb := 0; arWritableVolumeCount := 2147483648 |}.

Definition stats_req : StatisticsRequest :=
  {| srReplication := ""; srCollection := ""; srTtl := ""; srDiskType := "" |}.

(** A leader whose topology counts 600000000000 volume slots of 30000 MB:
    more than 2^64 bytes in all. *)
Definition ms_huge : MasterServer :=
  {| Topo := {| IsLeader := true;
                AvailableSpaceFor := fun _ => 10;
                DataCenterExists := fun dc => String.eqb dc "" || String.eqb dc "dc1";
                GetMaxVolumeCount := 600000000000;
                LayoutStats := fun _ => {| statUsedSize := 4096;
                                           statFileCount := 12 |} |};
     option_ := {| DefaultReplicaPlacement := "000";
                   VolumeSizeLimitMB := 30000 |};
     preallocateSize := 0;
     AutomaticGrowByType := fun _ _ => ([newVolume], None) |}.

Definition grow_req : topology.VolumeGrowRequest :=
  {| topology.Option := topology.ToGrowOption
                          (topology.GetVolumeLayout ""
                             {| super_block.DiffDataCenterCount := 0;
                                super_block.DiffRackCount := 0;
                                super_block.SameRackCount := 0 |}
                             {| needle.Count := 0; needle.Unit := 0 |} "hdd");
     topology.Count := 2; topology.Force := true;
     topology.Reason := "grpc volume grow" |}.

(** One layout, short in both data centers [dc1] and [dc2]. *)
Definition layout : topology.VolumeLayoutCollection :=
  topology.GetVolumeLayout "pics"
    {| super_block.DiffDataCenterCount := 0;
       super_block.DiffRackCount := 0;
       super_block.SameRackCount := 0 |}
    {| needle.Count := 0; needle.Unit := 0 |} "hdd".

Definition short_in_every_dc : Pipeline.ScanOracle :=
  {| Pipeline.ListDataCenters := ["dc1"; "dc2"];
     Pipeline.ListVolumeLayoutCollections := [layout];
     Pipeline.ShouldGrowVolumes := false;
     Pipeline.ShouldGrowVolumesByDataNode := true;
     Pipeline.GetLastGrowCount := 1 |}.

(** The leader's scanner runs alone: it enters the scan, visits the
    layout, and for each of the two data centers calls [AddGrowRequest]
    and sends. *)
Definition one_scan : list Pipeline.Action :=
  [ Pipeline.ActLeader true;
    Pipeline.ActScan short_in_every_dc;   (* IsLeader; list DCs and layouts *)
    Pipeline.ActScan short_in_every_dc;   (* layout: no guard, no collection growth *)
    Pipeline.ActScan short_in_every_dc;   (* dc1: AddGrowRequest *)
    Pipeline.ActScan short_in_every_dc;   (* dc1: send *)
    Pipeline.ActScan short_in_every_dc;   (* dc2: AddGrowRequest *)
    Pipeline.ActScan short_in_every_dc ]. (* dc2: send *)

(** The same scan with the dispatcher receiving the first request as soon
    as it is sent; possible whatever the capacity of the channel. *)
Definition one_scan_with_receive : list Pipeline.Action :=
  [ Pipeline.ActLeader true;
    Pipeline.ActScan short_in_every_dc;
    Pipeline.ActScan short_in_every_dc;
    Pipeline.ActScan short_in_every_dc;   (* dc1: AddGrowRequest *)
    Pipeline.ActScan short_in_every_dc;   (* dc1: send *)
    Pipeline.ActDispatch true;            (* receive, accepted *)
    Pipeline.ActScan short_in_every_dc ]. (* dc2: AddGrowRequest *)

(** A full life of one request: scanned, sent, received, accepted, grown,
    released, removed from the filter. *)
Definition one_request_accepted : list Pipeline.Action :=
  [ Pipeline.ActLeader true;
    Pipeline.ActScan short_in_every_dc;
    Pipeline.ActScan short_in_every_dc;
    Pipeline.ActScan short_in_every_dc;
    Pipeline.ActScan short_in_every_dc;
    Pipeline.ActDispatch true;
    Pipeline.ActDispatch true;
    Pipeline.ActTask 0 ([newVolume], None);
    Pipeline.ActTask 0 ([newVolume], None);
    Pipeline.ActTask 0 ([newVolume], None) ].



(** The first request of the scan of [one_scan]. *)
Definition request0 : ReqRef :=
  {| addr := 0;
     deref := {| topology.Option :=
                   topology.set_DataCenter
                     (topology.ToGrowOption layout) "dc1";
                 topology.Count := 1;
                 topology.Force := true;
                 topology.Reason := "per-dc autogrow" |} |}.

(** The scanner publishes [request0] and the dispatcher receives it. *)
Definition one_request_received : list Pipeline.Action :=
  [ Pipeline.ActLeader true;
    Pipeline.ActScan short_in_every_dc;
    Pipeline.ActScan short_in_every_dc;
    Pipeline.ActScan short_in_every_dc;
    Pipeline.ActScan short_in_every_dc;
    Pipeline.ActDispatch true ].

Definition short_collection : Pipeline.ScanOracle :=
  {| Pipeline.ListDataCenters := ["dc1"];
     Pipeline.ListVolumeLayoutCollections := [layout];
     Pipeline.ShouldGrowVolumes := true;
     Pipeline.ShouldGrowVolumesByDataNode := false;
     Pipeline.GetLastGrowCount := 1 |}.

(** A collection request is accepted and grown; after its
    [DoneGrowRequest] and before its removal from the filter the next scan
    publishes an equal request. *)
Definition republished_while_in_filter : list Pipeline.Action :=
  [ Pipeline.ActLeader true;
    Pipeline.ActScan short_collection;    (* IsLeader; list *)
    Pipeline.ActScan short_collection;    (* AddGrowRequest *)
    Pipeline.ActScan short_collection;    (* send *)
    Pipeline.ActDispatch true;            (* receive, accepted *)
    Pipeline.ActDispatch true;            (* Store, launch *)
    Pipeline.ActTask 0 ([newVolume], None);   (* grow *)
    Pipeline.ActTask 0 ([newVolume], None);   (* DoneGrowRequest *)
    Pipeline.ActScan short_collection;    (* end of scan, sleep *)
    Pipeline.ActScan short_collection;    (* IsLeader; list *)
    Pipeline.ActScan short_collection;    (* AddGrowRequest *)
    Pipeline.ActScan short_collection ].  (* send *)

Definition collection_request (a : nat) : ReqRef :=
  {| addr := a;
     deref := {| topology.Option := topology.ToGrowOption layout;
                 topology.Count := 1;
                 topology.Force := false;
                 topology.Reason := "collection autogrow" |} |}.

(** Leadership is lost while [request0] waits in the channel. *)
Definition demoted_before_receive : list Pipeline.Action :=
  [ Pipeline.ActLeader true;
    Pipeline.ActScan short_in_every_dc;
    Pipeline.ActScan short_in_every_dc;
    Pipeline.ActScan short_in_every_dc;
    Pipeline.ActScan short_in_every_dc;
    Pipeline.ActLeader false;
    Pipeline.ActDispatch true;    (* receive, not leader *)
    Pipeline.ActDispatch true ].  (* DoneGrowRequest *)

(** A collection request is published, and by the time the dispatcher
    receives it the layout no longer needs to grow. *)
Definition no_longer_needed : list Pipeline.Action :=
  [ Pipeline.ActLeader true;
    Pipeline.ActScan short_collection;    (* IsLeader; list *)
    Pipeline.ActScan short_collection;    (* AddGrowRequest *)
    Pipeline.ActScan short_collection;    (* send *)
    Pipeline.ActDispatch false;           (* receive, ShouldGrowVolumes false *)
    Pipeline.ActDispatch false ].         (* DoneGrowRequest *)

(** The republished request of [republished_while_in_filter] is received
    and released by the dispatcher. *)
Definition duplicate_discarded : list Pipeline.Action :=
  republished_while_in_filter
    ++ [ Pipeline.ActDispatch true; Pipeline.ActDispatch true ].

(** The states these schedules lead to. *)
Definition run_from_init (cap : nat) (acts : list Pipeline.Action)
  : Pipeline.State :=
  default Pipeline.init (Pipeline.run cap acts Pipeline.init).

Definition after_one_scan : Pipeline.State :=
  run_from_init 2 one_scan.
Definition after_receive : Pipeline.State :=
  run_from_init 1 one_request_received.
Definition after_republish : Pipeline.State :=
  run_from_init 1 republished_while_in_filter.

End Sample.

(** ** Views on the effects and on the parts of [VolumeGrow] *)

(** The broadcasts among a sequence of effects, in order. *)
Definition broadcasts (evs : list Event) : list VolumeLocation :=
  omap (fun e => match e with
                 | EvBroadcast resp => Some (kcVolumeLocation resp)
                 | _ => None
                 end) evs.

(** The calls that create volumes among a sequence of effects. *)
Definition grow_attempts (evs : list Event)
  : list (topology.VolumeGrowOption * Z) :=
  omap (fun e => match e with
                 | EvAutomaticGrowByType o c => Some (o, c)
                 | _ => None
                 end) evs.

(** The local [volumeGrowOption] of [VolumeGrow]. *)
Definition volumeGrowOption_of (ToDiskType : string -> types.DiskType)
    (ms : MasterServer) (req : AssignRequest)
    (replicaPlacement : super_block.ReplicaPlacement) (ttl : needle.TTL)
  : topology.VolumeGrowOption :=
  {| topology.Collection := arCollection req;
     topology.ReplicaPlacement := replicaPlacement;
     topology.Ttl := ttl;
     topology.DiskType := ToDiskType (arDiskType req);
     topology.Preallocate := preallocateSize ms;
     topology.DataCenter := arDataCenter req;
     topology.Rack := arRack req;
     topology.DataNode := arDataNode req;
     topology.MemoryMapMaxSizeMb := arMemoryMapMaxSizeMb req |}.

(** The local [replicaCount] of [VolumeGrow]:
    [int64(req.WritableVolumeCount * uint32(replicaPlacement.GetCopyCount()))]. *)
Definition replicaCount_of (req : AssignRequest)
    (replicaPlacement : super_block.ReplicaPlacement) : Z :=
  GoInt.int64
    (GoInt.mul_uint32 (arWritableVolumeCount req)
       (GoInt.uint32 (super_block.GetCopyCount replicaPlacement))).

(** The total size as the specification words it:
    [totalSize = maxVolumeCount x volumeSizeLimit], the limit in bytes. *)
Definition Statistics_spec_totalSize (ms : MasterServer) : Z :=
  GetMaxVolumeCount (Topo ms) * (VolumeSizeLimitMB (option_ ms) * 1024 * 1024).

(** The replication string the handlers parse. *)
Definition effective_replication (ms : MasterServer) (replication : string)
  : string :=
  if String.eqb replication "" then DefaultReplicaPlacement (option_ ms)
  else replication.

(** ** More of LookupVolume, VolumeGrow and the pipeline: views used by
    further properties *)

(** The volume ids for which [LookupVolume] keeps an entry. *)
Definition known_inputs (vls : gmap string operation.LookupResult)
    (ids : list string) : list string :=
  List.filter (fun s => bool_decide (is_Some (vls !! extracted_vid s))) ids.

(** [v + "," + k]: the file id of key [k] in volume [v]. *)
Definition file_id (v k : string) : string := v +:+ "," +:+ k.

(** Whether a string has a comma. *)
Definition has_comma (s : string) : bool :=
  match String.index 0 "," s with Some _ => true | None => false end.

(** [req] with its Replication field replaced. *)
Definition with_replication (req : AssignRequest) (replication : string)
  : AssignRequest :=
  {| arReplication := replication;
     arCollection := arCollection req;
     arTtl := arTtl req;
     arDiskType := arDiskType req;
     arDataCenter := arDataCenter req;
     arRack := arRack req;
     arDataNode := arDataNode req;
     arMemoryMapMaxSizeMb := arMemoryMapMaxSizeMb req;
     arWritableVolumeCount := arWritableVolumeCount req |}.

(** [ms] with another grower. *)
Definition with_grower (ms : MasterServer)
    (grow : topology.VolumeGrowOption -> Z -> list VolumeLocation * option error)
  : MasterServer :=
  {| Topo := Topo ms; option_ := option_ ms;
     preallocateSize := preallocateSize ms;
     AutomaticGrowByType := grow |}.

(** [req] with its Replication field replaced. *)
Definition stats_with_replication (req : StatisticsRequest)
    (replication : string) : StatisticsRequest :=
  {| srReplication := replication;
     srCollection := srCollection req;
     srTtl := srTtl req;
     srDiskType := srDiskType req |}.

(** Concrete data for the further properties. *)
Module Scenario.

(** [Sample.ms] with a grower that creates a volume and then fails. *)
Definition ms_failing_grower : MasterServer :=
  with_grower Sample.ms
    (fun _ _ => ([Sample.newVolume], Some (GrowError "no free volume slot"))).

(** [VolumeGrow{replication="001", writableVolumeCount=2, dataCenter="dc1"}] *)
Definition grow_two : AssignRequest :=
  {| arReplication := "001"; arCollection := ""; arTtl := "";
     arDiskType := ""; arDataCenter := "dc1"; arRack := ""; arDataNode := "";
     arMemoryMapMaxSizeMb := 0; arWritableVolumeCount := 2 |}.

(** [VolumeGrow{replication="001", writableVolumeCount=6}]: twelve replicas
    against ten free slots. *)
Definition grow_six : AssignRequest :=
  {| arReplication := "001"; arCollection := ""; arTtl := "";
     arDiskType := ""; arDataCenter := ""; arRack := ""; arDataNode := "";
     arMemoryMapMaxSizeMb := 0; arWritableVolumeCount := 6 |}.

Definition rp001 : super_block.ReplicaPlacement :=
  {| super_block.DiffDataCenterCount := 0;
     super_block.DiffRackCount := 0;
     super_block.SameRackCount := 1 |}.

Definition no_ttl : needle.TTL := {| needle.Count := 0; needle.Unit := 0 |}.

End Scenario.

(** ** Accounting of the pipeline's effects *)

Module Accounting.
Import Pipeline.

(** The requests that resolve to layout [vl]. *)
Definition on_layout (vl : VLC) (r : ReqRef) : bool :=
  bool_decide (layout_of (deref r) = vl).

Definition is_add (vl : VLC) (e : Event) : bool :=
  match e with EvAddGrowRequest vl' => bool_decide (vl' = vl) | _ => false end.
Definition is_done_on (vl : VLC) (e : Event) : bool :=
  match e with EvDoneGrowRequest vl' _ => bool_decide (vl' = vl) | _ => false end.

(** The requests sent on, and received from, the channel, in order. *)
Definition sent (tr : list Event) : list ReqRef :=
  omap (fun e => match e with EvSend r => Some r | _ => None end) tr.
Definition delivered (tr : list Event) : list ReqRef :=
  omap (fun e => match e with EvReceive r => Some r | _ => None end) tr.

(** The requests stored in, and deleted from, the filter, in order. *)
Definition stored (tr : list Event) : list ReqRef :=
  omap (fun e => match e with EvFilterStore r => Some r | _ => None end) tr.
Definition removed (tr : list Event) : list ReqRef :=
  omap (fun e => match e with EvFilterDelete r => Some r | _ => None end) tr.

(** The launched goroutines that have not called [AutomaticGrowByType]. *)
Definition not_grown (ts : list (ReqRef * TaskPC)) : list ReqRef :=
  flat_map (fun t => match snd t with TaskGrow => [fst t] | _ => [] end) ts.

(** Schedules in which the server is never made leader. *)
Definition stays_follower (acts : list Action) : Prop :=
  Forall (fun a => a <> ActLeader true) acts.

(** An answer of the topology under which nothing needs to grow. *)
Definition nothing_to_grow : ScanOracle :=
  {| ListDataCenters := []; ListVolumeLayoutCollections := [];
     ShouldGrowVolumes := false; ShouldGrowVolumesByDataNode := false;
     GetLastGrowCount := 0 |}.

(** *** Invariants of the accounting *)

Definition balanced (vl : VLC) (s : State) : Prop :=
  count (is_add vl) (trace s)
  = (count (is_done_on vl) (trace s) + occ (on_layout vl) (pending s))%nat.

(** Every entry of the filter belongs to a launched goroutine. *)
Definition filter_owned (s : State) : Prop :=
  forall a req, filter s !! a = Some req ->
                exists pc, ({| addr := a; deref := req |}, pc) ∈ tasks s.

(** The stages of the launched goroutines. *)
Definition lifecycle (s : State) : Prop :=
  stored (trace s) ≡ₚ removed (trace s) ++ map fst (tasks s)
  /\ map (fun r => (topology.Option (deref r), topology.Count (deref r)))
       (stored (trace s))
     ≡ₚ grow_attempts (trace s)
        ++ map (fun r => (topology.Option (deref r), topology.Count (deref r)))
             (not_grown (tasks s)).

(** A follower with no growth under way and none about to start. *)
Definition follower_idle (s : State) : Prop :=
  leader s = false /\ tasks s = []
  /\ forall r, dispatcher s <> DispAccept r.

(** Nothing is left in the pipeline. *)
Definition quiescent (s : State) : Prop :=
  pending s = [] /\ tasks s = [] /\ filter s = ∅
  /\ forall vl, guard s vl = false.

Definition is_any_add (e : Event) : bool :=
  match e with EvAddGrowRequest _ => true | _ => false end.

(** Behind a blocked send the scanner is at a loop head. *)
Definition one_send_at_a_time (pc : ScannerPC) : Prop :=
  match pc with
  | ScanSend _ k => scan_held k = []
  | _ => True
  end.

(** Every [AddGrowRequest] is followed by the send of one new request. *)
Definition published (s : State) : Prop :=
  count is_any_add (trace s)
  = (length (sent (trace s)) + length (scan_held (scanner s)))%nat
  /\ one_send_at_a_time (scanner s).

End Accounting.

(** Schedules in which leadership is lost in the middle of a scan. *)
Module Schedules.

(** The leader's scanner publishes the request for [dc1]; leadership is
    lost before the dispatcher receives it and before [dc2] is visited. *)
Definition demoted_in_scan : list Pipeline.Action :=
  [ Pipeline.ActLeader true;
    Pipeline.ActScan Sample.short_in_every_dc;
    Pipeline.ActScan Sample.short_in_every_dc;
    Pipeline.ActScan Sample.short_in_every_dc;   (* dc1: AddGrowRequest *)
    Pipeline.ActScan Sample.short_in_every_dc;   (* dc1: send *)
    Pipeline.ActLeader false ].

(** The follower's dispatcher discards the request; its scanner, still in
    the loop over the data centers, publishes the request for [dc2], which
    is discarded as well. *)
Definition as_follower : list Pipeline.Action :=
  [ Pipeline.ActDispatch true;                   (* receive, not leader *)
    Pipeline.ActDispatch true;                   (* DoneGrowRequest *)
    Pipeline.ActScan Sample.short_in_every_dc;   (* dc2: AddGrowRequest *)
    Pipeline.ActScan Sample.short_in_every_dc;   (* dc2: send *)
    Pipeline.ActDispatch true;                   (* receive, not leader *)
    Pipeline.ActDispatch true ].                 (* DoneGrowRequest *)

Definition demoted : Pipeline.State :=
  Sample.run_from_init 1 demoted_in_scan.
Definition after_discards : Pipeline.State :=
  Sample.run_from_init 1 (demoted_in_scan ++ as_follower).

Definition after_accepted : Pipeline.State :=
  Sample.run_from_init 1 Sample.one_request_accepted.

End Schedules.

(** ** VolumeMarkReadonly and LookupEcVolume *)

Module replicas.

(** The fields and methods of [topology.DataNode] these handlers read. *)
Record DataNode : Type := {
  Ip : string;
  Port : Z;             (* int *)
  Id : string;          (* dn.Id() *)
  PublicUrl : string;
  GetDataCenterId : string
}.

Record VolumeMarkReadonlyRequest : Type := {
  mrIp : string;
  mrPort : Z;               (* uint32 *)
  mrVolumeId : Z;           (* uint32 *)
  mrCollection : string;
  mrReplicaPlacement : Z;   (* uint32 *)
  mrTtl : Z;                (* uint32 *)
  mrDiskType : string;
  mrIsReadonly : bool
}.

Record VolumeMarkReadonlyResponse : Type := EmptyVolumeMarkReadonlyResponse {}.

(** The calls made on the volume layout. *)
Inductive LayoutEvent : Type :=
| EvSetVolumeReadOnly (vl : topology.VolumeLayoutCollection) (dn : DataNode)
    (vid : Z)
| EvSetVolumeWritable (vl : topology.VolumeLayoutCollection) (dn : DataNode)
    (vid : Z).

(** Conversion to [byte]. *)
Definition byte (z : Z) : Z := z mod 2 ^ 8.

Record LookupEcVolumeRequest : Type := {
  ecVolumeId : Z   (* uint32 *)
}.

Record EcShardIdLocation : Type := {
  ShardId : Z;   (* uint32 *)
  ShardLocations : list master_pb.Location
}.

Record LookupEcVolumeResponse : Type := {
  respVolumeId : Z;
  ShardIdLocations : list EcShardIdLocation
}.

(** [raft.NotLeaderError] and [fmt.Errorf("ec volume %d not found", vid)]. *)
Inductive ec_error : Type :=
| EcNotLeaderError
| ErrEcVolumeNotFound (vid : Z).

Section Handlers.

(** [super_block.NewReplicaPlacementFromByte], [needle.LoadTTLFromUint32],
    [types.ToDiskType], [Topology.Lookup] and [Topology.LookupEcShards] are
    outside this file. *)
Variable NewReplicaPlacementFromByte :
  Z -> super_block.ReplicaPlacement * option error.
Variable LoadTTLFromUint32 : Z -> needle.TTL.
Variable ToDiskType : string -> types.DiskType.
Variable Lookup : string -> Z -> list DataNode.
(** [ecLocations.Locations] as [range] yields it: the pairs
    [(shardId, shardLocations)] in the order of the iteration. *)
Variable LookupEcShards : Z -> option (list (Z * list DataNode)).

(** The body of [for _, dn := range dataNodes]. *)
Definition mark (vl : topology.VolumeLayoutCollection)
    (req : VolumeMarkReadonlyRequest) (dn : DataNode) : list LayoutEvent :=
  if String.eqb (Ip dn) (mrIp req) && (Port dn =? mrPort req)
  then
    if mrIsReadonly req
    then [EvSetVolumeReadOnly vl dn (mrVolumeId req)]
    else [EvSetVolumeWritable vl dn (mrVolumeId req)]
  else [].

Fixpoint mark_each (vl : topology.VolumeLayoutCollection)
    (req : VolumeMarkReadonlyRequest) (dataNodes : list DataNode)
  : list LayoutEvent :=
  match dataNodes with
  | [] => []
  | dn :: rest => mark vl req dn ++ mark_each vl req rest
  end.

Definition VolumeMarkReadonly (ms : MasterServer)
    (req : VolumeMarkReadonlyRequest)
  : (option VolumeMarkReadonlyResponse * option error) * list LayoutEvent :=
  if negb (IsLeader (Topo ms)) then ((None, Some NotLeaderError), []) else
  let '(replicaPlacement, _) :=
    NewReplicaPlacementFromByte (byte (mrReplicaPlacement req)) in
  let vl :=
    topology.GetVolumeLayout (mrCollection req) replicaPlacement
      (LoadTTLFromUint32 (mrTtl req)) (ToDiskType (mrDiskType req)) in
  let dataNodes := Lookup (mrCollection req) (mrVolumeId req) in
  ((Some EmptyVolumeMarkReadonlyResponse, None), mark_each vl req dataNodes).

(** The inner loop of [LookupEcVolume]: [locations] grows by [append]. *)
Fixpoint shard_locations (locations : list master_pb.Location)
    (shardLocations : list DataNode) : list master_pb.Location :=
  match shardLocations with
  | [] => locations
  | dn :: rest =>
      shard_locations
        (locations ++ [ {| master_pb.Url := Id dn;
                           master_pb.PublicUrl := PublicUrl dn;
                           master_pb.DataCenter := GetDataCenterId dn;
                           master_pb.GrpcPort := 0 |} ])
        rest
  end.

(** The outer loop: [resp.ShardIdLocations] grows by [append]. *)
Fixpoint shard_entries (acc : list EcShardIdLocation)
    (ecLocations : list (Z * list DataNode)) : list EcShardIdLocation :=
  match ecLocations with
  | [] => acc
  | (shardId, shardLocations) :: rest =>
      shard_entries
        (acc ++ [ {| ShardId := GoInt.uint32 shardId;
                     ShardLocations := shard_locations [] shardLocations |} ])
        rest
  end.

Definition LookupEcVolume (ms : MasterServer) (req : LookupEcVolumeRequest)
  : option LookupEcVolumeResponse * option ec_error :=
  if negb (IsLeader (Topo ms)) then (None, Some EcNotLeaderError) else
  let resp := {| respVolumeId := 0; ShardIdLocations := [] |} in
  match LookupEcShards (ecVolumeId req) with
  | None => (Some resp, Some (ErrEcVolumeNotFound (ecVolumeId req)))
  | Some ecLocations =>
      (Some {| respVolumeId := ecVolumeId req;
               ShardIdLocations := shard_entries [] ecLocations |},
       None)
  end.

End Handlers.

(** The replicas a request addresses. *)
Definition addressed (req : VolumeMarkReadonlyRequest) (dn : DataNode) : bool :=
  String.eqb (Ip dn) (mrIp req) && (Port dn =? mrPort req).

(** The node an effect is on, and whether it sets read-only. *)
Definition node_of (e : LayoutEvent) : DataNode :=
  match e with
  | EvSetVolumeReadOnly _ dn _ => dn
  | EvSetVolumeWritable _ dn _ => dn
  end.
Definition vid_of (e : LayoutEvent) : Z :=
  match e with
  | EvSetVolumeReadOnly _ _ vid => vid
  | EvSetVolumeWritable _ _ vid => vid
  end.
Definition layout_of_event (e : LayoutEvent) : topology.VolumeLayoutCollection :=
  match e with
  | EvSetVolumeReadOnly vl _ _ => vl
  | EvSetVolumeWritable vl _ _ => vl
  end.
Definition sets_readonly (e : LayoutEvent) : bool :=
  match e with
  | EvSetVolumeReadOnly _ _ _ => true
  | EvSetVolumeWritable _ _ _ => false
  end.

(** [req] with its ReplicaPlacement field replaced. *)
Definition with_replica_placement (req : VolumeMarkReadonlyRequest) (b : Z)
  : VolumeMarkReadonlyRequest :=
  {| mrIp := mrIp req; mrPort := mrPort req; mrVolumeId := mrVolumeId req;
     mrCollection := mrCollection req; mrReplicaPlacement := b;
     mrTtl := mrTtl req; mrDiskType := mrDiskType req;
     mrIsReadonly := mrIsReadonly req |}.

(** The location [LookupEcVolume] builds for a node. *)
Definition ec_location (dn : DataNode) : master_pb.Location :=
  {| master_pb.Url := Id dn;
     master_pb.PublicUrl := PublicUrl dn;
     master_pb.DataCenter := GetDataCenterId dn;
     master_pb.GrpcPort := 0 |}.

(** Concrete nodes and requests. *)
Module Nodes.

Definition NewReplicaPlacementFromByte (b : Z)
  : super_block.ReplicaPlacement * option error :=
  ({| super_block.DiffDataCenterCount := b / 100;
      super_block.DiffRackCount := (b / 10) mod 10;
      super_block.SameRackCount := b mod 10 |},
   if (2 <? b / 100) || (2 <? (b / 10) mod 10) || (2 <? b mod 10)
   then Some (ParseError "Unknown Replication Type")
   else None).

Definition LoadTTLFromUint32 (t : Z) : needle.TTL :=
  {| needle.Count := t / 256; needle.Unit := t mod 256 |}.

Definition n1 : DataNode :=
  {| Ip := "10.0.0.1"; Port := 8080; Id := "10.0.0.1:8080";
     PublicUrl := "n1.example"; GetDataCenterId := "dc1" |}.
Definition n2 : DataNode :=
  {| Ip := "10.0.0.2"; Port := 8080; Id := "10.0.0.2:8080";
     PublicUrl := "n2.example"; GetDataCenterId := "dc2" |}.

(** Volume 7 has replicas on [n1] and [n2]; no other volume is known. *)
Definition Lookup (collection : string) (vid : Z) : list DataNode :=
  if vid =? 7 then [n1; n2] else [].

(** EC volume 9 has three shard slots, the middle one without a node. *)
Definition LookupEcShards (vid : Z) : option (list (Z * list DataNode)) :=
  if vid =? 9 then Some [(0, [n1]); (1, []); (2, [n1; n2])] else None.

(** Mark the replica of volume 7 on [n2] read-only. *)
Definition readonly_n2 : VolumeMarkReadonlyRequest :=
  {| mrIp := "10.0.0.2"; mrPort := 8080; mrVolumeId := 7;
     mrCollection := ""; mrReplicaPlacement := 1; mrTtl := 0;
     mrDiskType := ""; mrIsReadonly := true |}.

(** The same for volume 99, which has no replica. *)
Definition readonly_unknown : VolumeMarkReadonlyRequest :=
  {| mrIp := "10.0.0.2"; mrPort := 8080; mrVolumeId := 99;
     mrCollection := ""; mrReplicaPlacement := 1; mrTtl := 0;
     mrDiskType := ""; mrIsReadonly := true |}.

(** A parser that reports no error. *)
Definition lenient (b : Z) : super_block.ReplicaPlacement * option error :=
  (fst (NewReplicaPlacementFromByte b), None).

End Nodes.

End replicas.

(** * Properties *)

(** ** Machine arithmetic *)

Lemma int64_congr (z : Z) : GoInt.int64 z mod 2 ^ 64 = z mod 2 ^ 64.
Proof.
  unfold GoInt.int64.
  rewrite Zminus_mod_idemp_l.
  f_equal. lia.
Qed.

Lemma mul_int64_congr (a b : Z) :
  GoInt.mul_int64 (GoInt.int64 a) b mod 2 ^ 64 = (a * b) mod 2 ^ 64.
Proof.
  unfold GoInt.mul_int64.
  rewrite int64_congr, <- Z.mul_mod_idemp_l, int64_congr by lia.
  now rewrite Z.mul_mod_idemp_l by lia.
Qed.

Lemma int64_idem (z : Z) : GoInt.int64 (GoInt.int64 z) = GoInt.int64 z.
Proof.
  unfold GoInt.int64 at 1.
  replace (GoInt.int64 z + 2 ^ 63) with ((z + 2 ^ 63) mod 2 ^ 64)
    by (unfold GoInt.int64; lia).
  now rewrite Z.mod_mod by lia.
Qed.

Lemma int64_small (z : Z) : - 2 ^ 63 <= z < 2 ^ 63 -> GoInt.int64 z = z.
Proof.
  intros H. unfold GoInt.int64.
  rewrite Z.mod_small by lia. lia.
Qed.

Lemma uint32_small (z : Z) : 0 <= z < 2 ^ 32 -> GoInt.uint32 z = z.
Proof. intros H. unfold GoInt.uint32. now rewrite Z.mod_small. Qed.

(** [totalSize] as [Statistics] computes it, three wrapping products and a
    conversion, is the mathematical product reduced modulo [2^64]. *)
Lemma totalSize_mod (maxVolumeCount volumeSizeLimitMB : Z) :
  GoInt.uint64
    (GoInt.mul_int64
       (GoInt.mul_int64
          (GoInt.mul_int64 maxVolumeCount (GoInt.int64 volumeSizeLimitMB))
          1024)
       1024)
  = (maxVolumeCount * volumeSizeLimitMB * 1024 * 1024) mod 2 ^ 64.
Proof.
  unfold GoInt.uint64.
  set (p1 := GoInt.mul_int64 maxVolumeCount (GoInt.int64 volumeSizeLimitMB)).
  assert (H1 : p1 mod 2 ^ 64 = (maxVolumeCount * volumeSizeLimitMB) mod 2 ^ 64).
  { unfold p1, GoInt.mul_int64.
    rewrite int64_congr, <- Z.mul_mod_idemp_r, int64_congr by lia.
    now rewrite Z.mul_mod_idemp_r by lia. }
  set (p2 := GoInt.mul_int64 p1 1024).
  assert (H2 : p2 mod 2 ^ 64
               = (maxVolumeCount * volumeSizeLimitMB * 1024) mod 2 ^ 64).
  { unfold p2, GoInt.mul_int64.
    rewrite int64_congr, <- Z.mul_mod_idemp_l, H1 by lia.
    now rewrite Z.mul_mod_idemp_l by lia. }
  unfold GoInt.mul_int64.
  rewrite int64_congr, <- Z.mul_mod_idemp_l, H2 by lia.
  now rewrite Z.mul_mod_idemp_l by lia.
Qed.

(** ** Loops that append *)

Lemma fold_left_snoc_map {A B} (f : A -> B) (l : list A) (acc : list B) :
  fold_left (fun acc x => acc ++ [f x]) l acc = acc ++ map f l.
Proof.
  revert acc. induction l as [|x l IH]; intros acc; simpl.
  - now rewrite app_nil_r.
  - rewrite IH. now rewrite <- app_assoc.
Qed.

Lemma for_range_emit {A} (f : A -> Event) (xs : list A) :
  for_range xs (fun x => emit (f x)) = (tt, map f xs).
Proof.
  induction xs as [|x xs IH]; cbn [for_range]; [reflexivity|].
  rewrite IH. reflexivity.
Qed.

(** ** LookupVolume *)

Section LookupVolumeFacts.

Variable GenJwtForVolumeServer : string -> Z -> string -> string.
Variable lookupVolumeId :
  list string -> string -> gmap string operation.LookupResult.
Variable SigningKey : string.
Variable ExpiresAfterSec : Z.

Local Abbreviation code_entry' :=
  (code_entry GenJwtForVolumeServer SigningKey ExpiresAfterSec).
Local Abbreviation LookupVolume' :=
  (LookupVolume GenJwtForVolumeServer lookupVolumeId SigningKey ExpiresAfterSec).

Lemma convert_locations_map (ls : list operation.Location) :
  convert_locations ls = map convert_location ls.
Proof. unfold convert_locations. now rewrite fold_left_snoc_map. Qed.

Lemma lookup_iteration_entry vls acc s :
  lookup_iteration GenJwtForVolumeServer SigningKey ExpiresAfterSec vls acc s
  = acc ++ match code_entry' vls s with Some e => [e] | None => [] end.
Proof.
  unfold lookup_iteration, code_entry, extracted_vid, is_file_id, entry_of.
  destruct (0 <? strings.Index s ",");
    (destruct (vls !! _); [reflexivity | now rewrite app_nil_r]).
Qed.

Lemma lookup_loop_omap vls (ids : list string) acc :
  fold_left
    (lookup_iteration GenJwtForVolumeServer SigningKey ExpiresAfterSec vls)
    ids acc
  = acc ++ omap (code_entry' vls) ids.
Proof.
  revert acc. induction ids as [|s ids IH]; intros acc; simpl.
  - now rewrite app_nil_r.
  - rewrite IH, lookup_iteration_entry, <- app_assoc. f_equal.
    destruct (code_entry' vls s); reflexivity.
Qed.

Lemma LookupVolume_omap (req : master_pb.LookupVolumeRequest) :
  LookupVolume' req
  = ({| master_pb.VolumeIdLocations :=
          omap (code_entry'
                  (lookupVolumeId (master_pb.VolumeOrFileIds req)
                     (master_pb.Collection req)))
            (master_pb.VolumeOrFileIds req) |},
     None).
Proof. unfold LookupVolume. now rewrite lookup_loop_omap. Qed.

Lemma is_file_id_index (s : string) :
  is_file_id s = true <-> exists n, String.index 0 "," s = Some (S n).
Proof.
  unfold is_file_id, strings.Index.
  destruct (String.index 0 "," s) as [[|n]|]; simpl; split;
    try discriminate; try (intros [? ?]; discriminate); eauto.
Qed.


End LookupVolumeFacts.

(** C6 (as amended). For every LookupVolume request the response lists, in
    input order, one entry per input whose extracted volume id is a key of
    the lookup result, and the error is nil; inputs whose id is not a key
    contribute nothing. The id is the prefix before the first comma only
    when that comma is at index 1 or later, otherwise it is the whole input;
    the entry's Auth is the token generated for the result's file id exactly
    in the first case and empty otherwise, so with a generator that never
    returns the empty token Auth is non-empty exactly for inputs whose first
    comma is at index 1 or later. *)
Theorem LookupVolume_contract
    (GenJwtForVolumeServer : string -> Z -> string -> string)
    (lookupVolumeId : list string -> string -> gmap string operation.LookupResult)
    (SigningKey : string) (ExpiresAfterSec : Z)
    (req : master_pb.LookupVolumeRequest) :
  let vls := lookupVolumeId (master_pb.VolumeOrFileIds req)
               (master_pb.Collection req) in
  let entry := code_entry GenJwtForVolumeServer SigningKey ExpiresAfterSec vls in
  LookupVolume GenJwtForVolumeServer lookupVolumeId SigningKey ExpiresAfterSec req
  = ({| master_pb.VolumeIdLocations := omap entry (master_pb.VolumeOrFileIds req) |},
     None)
  /\ (forall s,
        entry s =
        match vls !! extracted_vid s with
        | Some r =>
            Some {| master_pb.VolumeOrFileId := operation.VolumeOrFileId r;
                    master_pb.Locations :=
                      map convert_location (operation.Locations r);
                    master_pb.Error := operation.Error r;
                    master_pb.Auth :=
                      if is_file_id s
                      then GenJwtForVolumeServer SigningKey ExpiresAfterSec
                             (operation.VolumeOrFileId r)
                      else "" |}
        | None => None
        end)
  /\ (forall s, is_file_id s = true <-> exists n, String.index 0 "," s = Some (S n))
  /\ (forall s n, String.index 0 "," s = Some (S n) ->
                  extracted_vid s = String.substring 0 (S n) s)
  /\ (forall s, is_file_id s = false -> extracted_vid s = s)
  /\ ((forall fid, GenJwtForVolumeServer SigningKey ExpiresAfterSec fid <> "") ->
      forall s e, entry s = Some e ->
                  (master_pb.Auth e <> "" <-> is_file_id s = true)).
Proof.
  intros vls entry. repeat split.
  - apply LookupVolume_omap.
  - intros s. unfold entry, code_entry, entry_of.
    destruct (vls !! extracted_vid s); [|reflexivity].
    now rewrite convert_locations_map.
  - apply is_file_id_index.
  - apply is_file_id_index.
  - intros s n H. unfold extracted_vid, is_file_id, strings.Index, strings.slice_to.
    rewrite H. cbn [Z.ltb Z.of_nat Z.compare].
    replace (0 <? Z.of_nat (S n)) with true by (symmetry; apply Z.ltb_lt; lia).
    now rewrite Nat2Z.id.
  - intros s H. unfold extracted_vid. now rewrite H.
  - intros Hne. unfold entry, code_entry in H0.
    destruct (vls !! extracted_vid s); [|discriminate].
    injection H0 as <-. cbn in Hne.
    destruct (is_file_id s); [reflexivity|]. now contradiction Hne.
  - intros Hf. unfold entry, code_entry in H0.
    destruct (vls !! extracted_vid s); [|discriminate].
    injection H0 as <-. cbn. rewrite Hf. apply H.
Qed.

(** Witness for C6: with a generator that never returns the empty token,
    the entry for ["7,abc"] carries a token. *)
Lemma LookupVolume_contract_witness :
  (forall fid, Sample.GenJwt "key" 10 fid <> "") /\
  forall e,
    code_entry Sample.GenJwt "key" 10 Sample.volumeLocations37 "7,abc" = Some e ->
    (master_pb.Auth e <> "" <-> is_file_id "7,abc" = true).
Proof.
  assert (Hne : forall fid, Sample.GenJwt "key" 10 fid <> "")
    by (intros fid; discriminate).
  split; [exact Hne|].
  intros e He.
  exact (proj2 (proj2 (proj2 (proj2 (proj2
           (LookupVolume_contract Sample.GenJwt
              (fun _ _ => Sample.volumeLocations37) "key" 10
              {| master_pb.VolumeOrFileIds := ["3"; "7,abc"; "999"];
                 master_pb.Collection := "" |})))))
           Hne "7,abc" e He).
Defined.

(** The scenario of the specification: of ["3"; "7,abc"; "999"] the first
    two are answered, in order, and only the file id carries a token. *)
Example LookupVolume_mix :
  fst (LookupVolume Sample.GenJwt (fun _ _ => Sample.volumeLocations37) "key" 10
         {| master_pb.VolumeOrFileIds := ["3"; "7,abc"; "999"];
            master_pb.Collection := "" |})
  = {| master_pb.VolumeIdLocations :=
         [ {| master_pb.VolumeOrFileId := "3";
              master_pb.Locations := [convert_location Sample.node1];
              master_pb.Error := "";
              master_pb.Auth := "" |};
           {| master_pb.VolumeOrFileId := "7";
              master_pb.Locations := [convert_location Sample.node1;
                                      convert_location Sample.node1];
              master_pb.Error := "";
              master_pb.Auth := "jwt:7" |} ] |}.
Proof. vm_compute. reflexivity. Qed.

(** C6 (as stated) fails: the input [",abc"] contains a comma, its lookup
    key is present, and the response has an entry for it without a token;
    splitting at the first comma would look up the empty id and attach a
    token to whatever it finds. *)
Lemma LookupVolume_leading_comma_counterexample :
  let req := {| master_pb.VolumeOrFileIds := [",abc"];
                master_pb.Collection := "" |} in
  let code := LookupVolume Sample.GenJwt (fun _ _ => Sample.volumeLocations)
                "key" 10 req in
  spec_is_file_id ",abc" = true
  /\ (exists e, master_pb.VolumeIdLocations (fst code) = [e]
                /\ master_pb.Auth e = "")
  /\ code <> LookupVolume_spec Sample.GenJwt (fun _ _ => Sample.volumeLocations)
               "key" 10 req.
Proof.
  split; [reflexivity|]. split.
  - eexists. split; [vm_compute; reflexivity | reflexivity].
  - intros H. apply (f_equal (fun r => length (master_pb.VolumeIdLocations (fst r)))) in H.
    vm_compute in H. discriminate.
Qed.



(** ** Statistics *)

(** C8 (as amended). Statistics fails with NotLeader off the leader; on the leader it
    returns the replication parse error, else the TTL parse error, when
    parsing fails; otherwise it answers with the layout's UsedSize and
    FileCount and with TotalSize the 64-bit unsigned value of
    max volume count x VolumeSizeLimitMB x 1024 x 1024, which is that
    product itself whenever the product fits the field. *)
Theorem Statistics_contract
    (NewReplicaPlacementFromString : string -> result super_block.ReplicaPlacement)
    (ReadTTL : string -> result needle.TTL)
    (ToDiskType : string -> types.DiskType)
    (ms : MasterServer) (req : StatisticsRequest) :
  let replication := effective_replication ms (srReplication req) in
  let product :=
    GetMaxVolumeCount (Topo ms) * VolumeSizeLimitMB (option_ ms) * 1024 * 1024 in
  let run := Statistics NewReplicaPlacementFromString ReadTTL ToDiskType ms req in
  (IsLeader (Topo ms) = false -> run = (None, Some NotLeaderError))
  /\ (IsLeader (Topo ms) = true ->
      forall e, NewReplicaPlacementFromString replication = Err e ->
                run = (None, Some e))
  /\ (IsLeader (Topo ms) = true ->
      forall rp e, NewReplicaPlacementFromString replication = Ok rp ->
                   ReadTTL (srTtl req) = Err e ->
                   run = (None, Some e))
  /\ (IsLeader (Topo ms) = true ->
      forall rp ttl, NewReplicaPlacementFromString replication = Ok rp ->
                     ReadTTL (srTtl req) = Ok ttl ->
        let stats :=
          LayoutStats (Topo ms)
            (topology.GetVolumeLayout (srCollection req) rp ttl
               (ToDiskType (srDiskType req))) in
        run = (Some {| TotalSize := product mod 2 ^ 64;
                       UsedSize := statUsedSize stats;
                       FileCount := statFileCount stats |}, None)
        /\ (0 <= product < 2 ^ 64 ->
            run = (Some {| TotalSize := product;
                           UsedSize := statUsedSize stats;
                           FileCount := statFileCount stats |}, None))).
Proof.
  intros replication product run. unfold run, Statistics.
  change (if String.eqb (srReplication req) ""
          then DefaultReplicaPlacement (option_ ms) else srReplication req)
    with replication.
  repeat apply conj.
  - intros ->. reflexivity.
  - intros -> e ->. reflexivity.
  - intros -> rp e -> ->. reflexivity.
  - intros -> rp ttl -> ->. cbv zeta. cbn [negb].
    rewrite totalSize_mod. fold product.
    split; [reflexivity|].
    intros Hfit. now rewrite Z.mod_small.
Qed.

(** Witness for C8 on the sample leader: 30 volumes of 30000 MB. *)
Lemma Statistics_contract_witness :
  Statistics Sample.NewReplicaPlacementFromString Sample.ReadTTL
    Sample.ToDiskType Sample.ms Sample.stats_req
  = (Some {| TotalSize := 30 * 30000 * 1024 * 1024;
             UsedSize := 4096; FileCount := 12 |}, None).
Proof.
  refine (proj2 (proj2 (proj2 (proj2
            (Statistics_contract Sample.NewReplicaPlacementFromString
               Sample.ReadTTL Sample.ToDiskType Sample.ms Sample.stats_req)))
            eq_refl _ _ eq_refl eq_refl) _).
  vm_compute. split; [discriminate | reflexivity].
Defined.

(** C8 (as stated) fails: on a leader whose topology counts 600000000000
    volume slots of 30000 MB the request parses and Statistics answers
    without error, but the product exceeds 64 bits and TotalSize is its
    remainder modulo 2^64, not the product. *)
Lemma Statistics_total_size_counterexample :
  let run := Statistics Sample.NewReplicaPlacementFromString Sample.ReadTTL
               Sample.ToDiskType Sample.ms_huge Sample.stats_req in
  Statistics_spec_totalSize Sample.ms_huge = 18874368000000000000000
  /\ run = (Some {| TotalSize := 3348812595128696832;
                    UsedSize := 4096; FileCount := 12 |}, None)
  /\ (forall resp, fst run = Some resp ->
                   TotalSize resp <> Statistics_spec_totalSize Sample.ms_huge).
Proof.
  split; [reflexivity|]. split; [vm_compute; reflexivity|].
  intros resp Hr. vm_compute in Hr. injection Hr as <-.
  vm_compute. discriminate.
Qed.

(** ** DoAutomaticVolumeGrow *)

Lemma broadcasts_of_map (ls : list VolumeLocation) :
  broadcasts (map (fun l => EvBroadcast {| kcVolumeLocation := l |}) ls) = ls.
Proof. induction ls as [|l ls IH]; [reflexivity|]. cbn. now f_equal. Qed.

Lemma DoAutomaticVolumeGrow_effects grow (req : topology.VolumeGrowRequest) :
  DoAutomaticVolumeGrow grow req
  = (tt,
     EvAutomaticGrowByType (topology.Option req) (topology.Count req)
       :: match snd (grow (topology.Option req) (topology.Count req)) with
          | Some _ => []
          | None =>
              map (fun l => EvBroadcast {| kcVolumeLocation := l |})
                (fst (grow (topology.Option req) (topology.Count req)))
          end).
Proof.
  unfold DoAutomaticVolumeGrow.
  destruct (grow _ _) as [ls [e|]]; cbn [fst snd].
  - reflexivity.
  - rewrite (for_range_emit (fun l => EvBroadcast {| kcVolumeLocation := l |})).
    reflexivity.
Qed.

(** C9. DoAutomaticVolumeGrow makes one grow attempt; if the attempt returns
    an error no broadcast is sent, otherwise the broadcasts are exactly the
    produced locations, one KeepConnectedResponse each, in the order they
    were produced. *)
Theorem DoAutomaticVolumeGrow_broadcasts
    (grow : topology.VolumeGrowOption -> Z -> list VolumeLocation * option error)
    (req : topology.VolumeGrowRequest) :
  let outcome := grow (topology.Option req) (topology.Count req) in
  broadcasts (snd (DoAutomaticVolumeGrow grow req))
  = match snd outcome with
    | Some _ => []
    | None => fst outcome
    end.
Proof.
  intros outcome. rewrite DoAutomaticVolumeGrow_effects. cbn [snd].
  fold outcome. cbn [broadcasts omap list_omap].
  destruct (snd outcome); [reflexivity|].
  apply broadcasts_of_map.
Qed.

Example DoAutomaticVolumeGrow_two_volumes :
  snd (DoAutomaticVolumeGrow
         (fun _ _ => ([Sample.newVolume; Sample.newVolume], None)) Sample.grow_req)
  = [ EvAutomaticGrowByType (topology.Option Sample.grow_req) 2;
      EvBroadcast {| kcVolumeLocation := Sample.newVolume |};
      EvBroadcast {| kcVolumeLocation := Sample.newVolume |} ].
Proof. reflexivity. Qed.

Example DoAutomaticVolumeGrow_failed :
  snd (DoAutomaticVolumeGrow
         (fun _ _ => ([Sample.newVolume], Some (GrowError "no free slot")))
         Sample.grow_req)
  = [ EvAutomaticGrowByType (topology.Option Sample.grow_req) 2 ].
Proof. reflexivity. Qed.

(** ** VolumeGrow *)

Section VolumeGrowFacts.

Variable NewReplicaPlacementFromString :
  string -> result super_block.ReplicaPlacement.
Variable ReadTTL : string -> result needle.TTL.
Variable ToDiskType : string -> types.DiskType.

Local Abbreviation VolumeGrow' :=
  (VolumeGrow NewReplicaPlacementFromString ReadTTL ToDiskType).

(** Once the leader check, the two parsers and the capacity comparison
    have passed, nothing else can stop the growth: the handler calls
    [DoAutomaticVolumeGrow] and answers with an empty body and no error. *)
Lemma VolumeGrow_past_preflight (ms : MasterServer) (req : AssignRequest)
    (rp : super_block.ReplicaPlacement) (ttl : needle.TTL) :
  IsLeader (Topo ms) = true ->
  NewReplicaPlacementFromString (effective_replication ms (arReplication req))
    = Ok rp ->
  ReadTTL (arTtl req) = Ok ttl ->
  replicaCount_of req rp
    <= AvailableSpaceFor (Topo ms) (volumeGrowOption_of ToDiskType ms req rp ttl) ->
  VolumeGrow' ms req
  = ((Some EmptyVolumeGrowResponse, None),
     snd (DoAutomaticVolumeGrow (AutomaticGrowByType ms)
            {| topology.Option := volumeGrowOption_of ToDiskType ms req rp ttl;
               topology.Count := arWritableVolumeCount req;
               topology.Force := true;
               topology.Reason := "grpc volume grow" |})).
Proof.
  intros Hl Hrp Httl Hcap. unfold VolumeGrow.
  rewrite Hl. cbn [negb].
  unfold effective_replication in Hrp. rewrite Hrp, Httl.
  fold (volumeGrowOption_of ToDiskType ms req rp ttl).
  fold (replicaCount_of req rp).
  apply Z.ltb_ge in Hcap. rewrite Hcap.
  destruct (DoAutomaticVolumeGrow _ _) as [[] evs].
  cbn. now rewrite app_nil_r.
Qed.

(** The capacity preflight, when the product does not wrap: the call fails
    before anything is attempted. *)
Lemma VolumeGrow_capacity_preflight (ms : MasterServer) (req : AssignRequest)
    (rp : super_block.ReplicaPlacement) (ttl : needle.TTL) :
  IsLeader (Topo ms) = true ->
  NewReplicaPlacementFromString (effective_replication ms (arReplication req))
    = Ok rp ->
  ReadTTL (arTtl req) = Ok ttl ->
  0 <= arWritableVolumeCount req ->
  0 <= super_block.GetCopyCount rp ->
  arWritableVolumeCount req * super_block.GetCopyCount rp < 2 ^ 32 ->
  AvailableSpaceFor (Topo ms) (volumeGrowOption_of ToDiskType ms req rp ttl)
    < arWritableVolumeCount req * super_block.GetCopyCount rp ->
  VolumeGrow' ms req
  = ((None,
      Some (ErrOnlyVolumesLeft
              (AvailableSpaceFor (Topo ms)
                 (volumeGrowOption_of ToDiskType ms req rp ttl))
              (arWritableVolumeCount req * super_block.GetCopyCount rp))),
     []).
Proof.
  intros Hl Hrp Httl Hw Hc Hfit Hlt. unfold VolumeGrow.
  rewrite Hl. cbn [negb].
  unfold effective_replication in Hrp. rewrite Hrp, Httl.
  fold (volumeGrowOption_of ToDiskType ms req rp ttl).
  fold (replicaCount_of req rp).
  assert (Hrc : replicaCount_of req rp
                = arWritableVolumeCount req * super_block.GetCopyCount rp).
  { assert (Hnn : 0 <= arWritableVolumeCount req * super_block.GetCopyCount rp)
      by (apply Z.mul_nonneg_nonneg; assumption).
    unfold replicaCount_of, GoInt.mul_uint32, GoInt.uint32.
    rewrite Z.mul_mod_idemp_r by lia.
    rewrite Z.mod_small by lia.
    apply int64_small. lia. }
  rewrite Hrc. apply Z.ltb_lt in Hlt. rewrite Hlt. reflexivity.
Qed.

End VolumeGrowFacts.

(** C1 (what the code does instead). On the leader, with a request that
    parses and passes the capacity comparison, a pinned data center that does
    not exist changes nothing: [VolumeGrow] still attempts the growth,
    broadcasts what was created, and returns an empty body with a nil
    error. *)
Theorem VolumeGrow_unknown_data_center
    (NewReplicaPlacementFromString : string -> result super_block.ReplicaPlacement)
    (ReadTTL : string -> result needle.TTL)
    (ToDiskType : string -> types.DiskType)
    (ms : MasterServer) (req : AssignRequest)
    (rp : super_block.ReplicaPlacement) (ttl : needle.TTL) :
  IsLeader (Topo ms) = true ->
  NewReplicaPlacementFromString (effective_replication ms (arReplication req))
    = Ok rp ->
  ReadTTL (arTtl req) = Ok ttl ->
  replicaCount_of req rp
    <= AvailableSpaceFor (Topo ms) (volumeGrowOption_of ToDiskType ms req rp ttl) ->
  DataCenterExists (Topo ms) (arDataCenter req) = false ->
  let run := VolumeGrow NewReplicaPlacementFromString ReadTTL ToDiskType ms req in
  let option := volumeGrowOption_of ToDiskType ms req rp ttl in
  let outcome := AutomaticGrowByType ms option (arWritableVolumeCount req) in
  fst run = (Some EmptyVolumeGrowResponse, None)
  /\ grow_attempts (snd run) = [(option, arWritableVolumeCount req)]
  /\ broadcasts (snd run)
     = match snd outcome with Some _ => [] | None => fst outcome end.
Proof.
  intros Hl Hrp Httl Hcap _ run option outcome. unfold run.
  rewrite (VolumeGrow_past_preflight _ _ _ ms req rp ttl Hl Hrp Httl Hcap).
  cbn [fst snd]. split; [reflexivity|]. split.
  - rewrite DoAutomaticVolumeGrow_effects. cbn [snd topology.Option topology.Count].
    fold option. fold outcome. cbn [grow_attempts omap list_omap]. f_equal.
    destruct (snd outcome); [reflexivity|].
    induction (fst outcome) as [|l ls IH]; [reflexivity | exact IH].
  - rewrite DoAutomaticVolumeGrow_effects. cbn [snd topology.Option topology.Count].
    fold option. fold outcome. cbn [broadcasts omap list_omap].
    destruct (snd outcome); [reflexivity|].
    apply broadcasts_of_map.
Qed.

(** Witness for C1: the sample leader knows only [dc1]; a grow request
    pinned to [dc9] creates a volume and is answered without error. *)
Lemma VolumeGrow_unknown_data_center_witness :
  let run := VolumeGrow Sample.NewReplicaPlacementFromString Sample.ReadTTL
               Sample.ToDiskType Sample.ms Sample.grow_unknown_dc in
  DataCenterExists (Topo Sample.ms) (arDataCenter Sample.grow_unknown_dc) = false
  /\ fst run = (Some EmptyVolumeGrowResponse, None)
  /\ grow_attempts (snd run)
     = [(volumeGrowOption_of Sample.ToDiskType Sample.ms Sample.grow_unknown_dc
           {| super_block.DiffDataCenterCount := 0;
              super_block.DiffRackCount := 0;
              super_block.SameRackCount := 1 |}
           {| needle.Count := 0; needle.Unit := 0 |}, 1)]
  /\ broadcasts (snd run) = [Sample.newVolume].
Proof.
  split; [reflexivity|].
  apply (VolumeGrow_unknown_data_center
           Sample.NewReplicaPlacementFromString Sample.ReadTTL
           Sample.ToDiskType Sample.ms Sample.grow_unknown_dc
           {| super_block.DiffDataCenterCount := 0;
              super_block.DiffRackCount := 0;
              super_block.SameRackCount := 1 |}
           {| needle.Count := 0; needle.Unit := 0 |}
           eq_refl eq_refl eq_refl).
  - vm_compute. discriminate.
  - reflexivity.
Defined.

(** C7 (what the code does instead). The product is formed at 32 bits
    before it is widened: when WritableVolumeCount x copy count exceeds the
    available space but its low 32 bits do not, the capacity comparison
    passes and [VolumeGrow] attempts the growth and returns no error. *)
Theorem VolumeGrow_capacity_check_wraps
    (NewReplicaPlacementFromString : string -> result super_block.ReplicaPlacement)
    (ReadTTL : string -> result needle.TTL)
    (ToDiskType : string -> types.DiskType)
    (ms : MasterServer) (req : AssignRequest)
    (rp : super_block.ReplicaPlacement) (ttl : needle.TTL) :
  IsLeader (Topo ms) = true ->
  NewReplicaPlacementFromString (effective_replication ms (arReplication req))
    = Ok rp ->
  ReadTTL (arTtl req) = Ok ttl ->
  let option := volumeGrowOption_of ToDiskType ms req rp ttl in
  AvailableSpaceFor (Topo ms) option
    < arWritableVolumeCount req * super_block.GetCopyCount rp ->
  (arWritableVolumeCount req * super_block.GetCopyCount rp) mod 2 ^ 32
    <= AvailableSpaceFor (Topo ms) option ->
  let run := VolumeGrow NewReplicaPlacementFromString ReadTTL ToDiskType ms req in
  fst run = (Some EmptyVolumeGrowResponse, None)
  /\ grow_attempts (snd run) = [(option, arWritableVolumeCount req)].
Proof.
  intros Hl Hrp Httl option Hexceeds Hwrapped run.
  assert (Hrc : replicaCount_of req rp
                = (arWritableVolumeCount req * super_block.GetCopyCount rp)
                    mod 2 ^ 32).
  { unfold replicaCount_of, GoInt.mul_uint32, GoInt.uint32.
    rewrite Z.mul_mod_idemp_r by lia.
    apply int64_small.
    pose proof (Z.mod_pos_bound
                  (arWritableVolumeCount req * super_block.GetCopyCount rp)
                  (2 ^ 32)). lia. }
  unfold run.
  rewrite (VolumeGrow_past_preflight _ _ _ ms req rp ttl Hl Hrp Httl)
    by (rewrite Hrc; exact Hwrapped).
  cbn [fst snd]. split; [reflexivity|].
  rewrite DoAutomaticVolumeGrow_effects. cbn [snd topology.Option topology.Count].
  fold option. cbn [grow_attempts omap list_omap]. f_equal.
  destruct (snd _); [reflexivity|].
  induction (fst _) as [|l ls IH]; [reflexivity | exact IH].
Qed.

(** Witness for C7: 2147483648 volumes with replication 001 (two copies)
    against ten free slots. *)
Lemma VolumeGrow_capacity_check_wraps_witness :
  AvailableSpaceFor (Topo Sample.ms)
    (volumeGrowOption_of Sample.ToDiskType Sample.ms Sample.grow_huge
       {| super_block.DiffDataCenterCount := 0;
          super_block.DiffRackCount := 0;
          super_block.SameRackCount := 1 |}
       {| needle.Count := 0; needle.Unit := 0 |})
    < arWritableVolumeCount Sample.grow_huge * 2
  /\ fst (VolumeGrow Sample.NewReplicaPlacementFromString Sample.ReadTTL
            Sample.ToDiskType Sample.ms Sample.grow_huge)
     = (Some EmptyVolumeGrowResponse, None)
  /\ grow_attempts
       (snd (VolumeGrow Sample.NewReplicaPlacementFromString Sample.ReadTTL
               Sample.ToDiskType Sample.ms Sample.grow_huge))
     = [(volumeGrowOption_of Sample.ToDiskType Sample.ms Sample.grow_huge
           {| super_block.DiffDataCenterCount := 0;
              super_block.DiffRackCount := 0;
              super_block.SameRackCount := 1 |}
           {| needle.Count := 0; needle.Unit := 0 |}, 2147483648)].
Proof.
  split; [reflexivity|].
  apply (VolumeGrow_capacity_check_wraps
           Sample.NewReplicaPlacementFromString Sample.ReadTTL
           Sample.ToDiskType Sample.ms Sample.grow_huge
           {| super_block.DiffDataCenterCount := 0;
              super_block.DiffRackCount := 0;
              super_block.SameRackCount := 1 |}
           {| needle.Count := 0; needle.Unit := 0 |}
           eq_refl eq_refl eq_refl).
  - reflexivity.
  - vm_compute. discriminate.
Defined.

(** ** ProcessGrowRequest *)

Module PipelineProofs.
Import Pipeline.

#[local] Set Warnings "-clear-no-such-hyp".

(** *** Case analysis on a step *)

Ltac step_cases H :=
  unfold step, scan_step, dispatch_step, task_step,
    AddGrowRequest, DoneGrowRequest, HasGrowRequest in H;
  repeat case_match; simplify_eq.

Ltac project :=
  cbn [scanner chan trace next_addr dispatcher tasks filter guard leader
       log alloc with_scanner with_chan with_guard with_dispatcher with_tasks
       with_filter with_leader] in *.

Ltac use_pcs :=
  repeat match goal with
    | H : scanner _ = _ |- _ => rewrite H in *; clear H
    | H : dispatcher _ = _ |- _ => rewrite H in *; clear H
    | H : chan _ = _ |- _ => rewrite H in *; clear H
    end.

Lemma occ_app p l1 l2 : occ p (l1 ++ l2) = (occ p l1 + occ p l2)%nat.
Proof. unfold occ. now rewrite List.filter_app, length_app. Qed.

Lemma occ_cons p r l :
  occ p (r :: l) = ((if p r then 1 else 0) + occ p l)%nat.
Proof. unfold occ. cbn. now destruct (p r). Qed.

Lemma occ_nil p : occ p [] = 0%nat.
Proof. reflexivity. Qed.

Lemma count_app p tr1 tr2 :
  count p (tr1 ++ tr2) = (count p tr1 + count p tr2)%nat.
Proof. unfold count. now rewrite List.filter_app, length_app. Qed.

Lemma count_cons p e tr :
  count p (e :: tr) = ((if p e then 1 else 0) + count p tr)%nat.
Proof. unfold count. cbn. now destruct (p e). Qed.

Lemma count_nil p : count p [] = 0%nat.
Proof. reflexivity. Qed.

Lemma running_app ts1 ts2 : running (ts1 ++ ts2) = running ts1 ++ running ts2.
Proof. unfold running. apply flat_map_app. Qed.

Lemma running_cons t ts : running (t :: ts) = task_running t ++ running ts.
Proof. reflexivity. Qed.

Lemma running_nil : running [] = [].
Proof. reflexivity. Qed.

Lemma tasks_split (ts : list (ReqRef * TaskPC)) i t :
  ts !! i = Some t -> ts = take i ts ++ t :: drop (S i) ts.
Proof. intros H. symmetry. now apply take_drop_middle. Qed.

Lemma tasks_insert_split (ts : list (ReqRef * TaskPC)) i t t' :
  ts !! i = Some t -> <[i := t']> ts = take i ts ++ t' :: drop (S i) ts.
Proof. intros H. apply insert_take_drop. eapply lookup_lt_Some; eauto. Qed.

Lemma tasks_delete_split (ts : list (ReqRef * TaskPC)) i :
  delete i ts = take i ts ++ drop (S i) ts.
Proof. apply delete_take_drop. Qed.

(** Replace the task list by [before ++ t :: after] around the task that
    steps. *)
Ltac split_tasks :=
  match goal with
  | H : tasks ?s !! ?i = Some ?t |- _ =>
      rewrite ?(tasks_insert_split _ _ _ _ H), ?tasks_delete_split in *;
      let E := fresh "E" in
      pose proof (tasks_split _ _ _ H) as E;
      let l1 := fresh "before" in
      let l2 := fresh "after" in
      set (l1 := take i (tasks s)) in *;
      set (l2 := drop (S i) (tasks s)) in *;
      clearbody l1 l2; clear H;
      rewrite E in *; clear E
  end.

Lemma grow_events_count p grow req :
  (forall o c, p (EvAutomaticGrowByType o c) = false) ->
  (forall resp, p (EvBroadcast resp) = false) ->
  count p (snd (DoAutomaticVolumeGrow grow req)) = 0%nat.
Proof.
  intros Hg Hb. rewrite DoAutomaticVolumeGrow_effects. cbn [snd].
  rewrite count_cons, Hg.
  destruct (snd _); [reflexivity|].
  induction (fst _) as [|l ls IH]; [reflexivity|].
  cbn [map]. now rewrite count_cons, Hb.
Qed.

Ltac grow_events p :=
  match goal with
  | H : DoAutomaticVolumeGrow ?g ?r = (_, ?l) |- _ =>
      let C := fresh "C" in
      assert (C : count p l = 0%nat)
        by (pose proof (grow_events_count p g r) as C; rewrite H in C;
            apply C; reflexivity)
  end.

Ltac ltb_cases :=
  repeat match goal with
    | |- context [(?x <? ?y)%nat] => destruct (Nat.ltb_spec x y)
    | H : context [(?x <? ?y)%nat] |- _ => destruct (Nat.ltb_spec x y)
    end.

Ltac count_norm :=
  cbn [scan_held disp_held app] in *;
  rewrite ?running_app, ?running_cons, ?running_nil in *;
  cbn [task_running fst snd app] in *;
  rewrite ?map_app in *; cbn [map fst] in *;
  repeat (progress
            rewrite ?count_app, ?occ_app, ?count_cons, ?occ_cons,
              ?count_nil, ?occ_nil in *);
  cbn [is_receive is_done] in *.

Ltac count_solve :=
  repeat match goal with
    | |- context [if ?p ?r then _ else _] => destruct (p r) eqn:?
    | H : context [if ?p ?r then _ else _] |- _ => destruct (p r) eqn:?
    end;
  ltb_cases; try lia.

(** *** Every request is received at most once and released exactly once *)

Lemma counted_init : counted init.
Proof. split; intros; reflexivity. Qed.

Lemma counted_step cap a s s' :
  step cap a s = Some s' -> counted s -> counted s'.
Proof.
  intros Hstep [K1 K2]. destruct a; step_cases Hstep; try (split; assumption).
  all: split; [intros b; specialize (K1 b) | intros p; specialize (K2 p)].
  all: try (pose proof (proj1 (conj (K1 (next_addr s)) I)) as K1n).
  all: unfold received, done_calls, in_progress, held_before_receive in *;
    project; use_pcs; try split_tasks.
  all: try (grow_events (is_receive (same_addr b)));
    try (grow_events (is_receive p); grow_events (is_done p)).
  all: count_norm; try assumption; try lia.
  all: unfold same_addr in *; cbn [addr] in *.
  all: repeat case_bool_decide; subst; count_solve.
Qed.

(** *** A [DoneGrowRequest] is made on the request's own layout *)

Lemma DoAutomaticVolumeGrow_no_done grow req :
  Forall done_on_own_layout (snd (DoAutomaticVolumeGrow grow req)).
Proof.
  rewrite DoAutomaticVolumeGrow_effects. cbn [snd].
  constructor; [exact I|].
  destruct (snd _); [constructor|].
  induction (fst _) as [|l ls IH]; constructor; [exact I | exact IH].
Qed.

Lemma done_layout_step cap a s s' :
  step cap a s = Some s' ->
  Forall done_on_own_layout (trace s) ->
  Forall done_on_own_layout (trace s').
Proof.
  intros Hstep Hinv. destruct a; step_cases Hstep; project; try assumption.
  all: apply Forall_app; split; [assumption|].
  all: try (repeat constructor; fail).
  match goal with
  | H : DoAutomaticVolumeGrow ?g ?r = _ |- _ =>
      pose proof (DoAutomaticVolumeGrow_no_done g r) as Hd;
      rewrite H in Hd; exact Hd
  end.
Qed.

(** *** Request objects are not shared *)

Lemma unique_init : unique init.
Proof. intros a. cbn. lia. Qed.

Lemma unique_step cap a s s' :
  step cap a s = Some s' -> unique s -> unique s'.
Proof.
  intros Hstep K. destruct a; step_cases Hstep; try assumption.
  all: intros b; pose proof (K (next_addr s)) as Kn; specialize (K b).
  all: rewrite Nat.ltb_irrefl in Kn.
  all: unfold live in *; project; use_pcs; try split_tasks.
  all: count_norm; try assumption; try lia.
  all: unfold same_addr in *; cbn [addr] in *.
  all: repeat case_bool_decide; subst; count_solve.
Qed.

(** *** A set guard has a pending request behind it *)

Lemma layout_of_ToGrowOption vlc c force reason :
  layout_of {| topology.Option := topology.ToGrowOption vlc;
               topology.Count := c; topology.Force := force;
               topology.Reason := reason |} = vlc.
Proof. now destruct vlc as [? []]. Qed.

Lemma layout_of_set_DataCenter vlc dc c force reason :
  layout_of {| topology.Option :=
                 topology.set_DataCenter (topology.ToGrowOption vlc) dc;
               topology.Count := c; topology.Force := force;
               topology.Reason := reason |} = vlc.
Proof. now destruct vlc as [? []]. Qed.

Lemma guarded_init : guarded init.
Proof. intros vl H. discriminate. Qed.

Lemma guarded_step cap a s s' :
  step cap a s = Some s' -> guarded s -> guarded s'.
Proof.
  intros Hstep K. destruct a; step_cases Hstep; try assumption.
  all: intros vl Hg; specialize (K vl).
  all: unfold pending in *; project; try case_decide; simplify_eq.
  all: try (match goal with |- context [ScanSend ?r _] => exists r end;
            split;
            [ cbn [scan_held]; set_solver
            | first [apply layout_of_ToGrowOption
                    | apply layout_of_set_DataCenter] ]).
  all: destruct (K Hg) as (r0 & Hin & Hl); clear K.
  all: use_pcs; try split_tasks.
  all: cbn [scan_held disp_held] in *;
    rewrite ?running_app, ?running_cons, ?running_nil in *;
    cbn [task_running fst snd] in *.
  all: exists r0; split; [|exact Hl].
  all: set_solver.
Qed.

(** *** The in-flight filter holds no two equal requests *)

Lemma Equals_sym a b : Equals a b = Equals b a.
Proof. unfold Equals. apply bool_decide_ext. split; congruence. Qed.

Lemma Range_found_spec f req :
  Range_found f req = true
  <-> exists a r', f !! a = Some r' /\ Equals r' req = true.
Proof.
  unfold Range_found. rewrite existsb_exists. split.
  - intros ([a r'] & Hin & He). exists a, r'. split; [|exact He].
    now apply elem_of_map_to_list, list_elem_of_In.
  - intros (a & r' & Hl & He). exists (a, r'). split; [|exact He].
    now apply list_elem_of_In, elem_of_map_to_list.
Qed.

Lemma Range_found_false f req a r' :
  Range_found f req = false -> f !! a = Some r' -> Equals r' req = false.
Proof.
  intros Hf Hl. destruct (Equals r' req) eqn:He; [|reflexivity].
  assert (Range_found f req = true) by (apply Range_found_spec; eauto).
  congruence.
Qed.

Lemma filter_ok_init : filter_ok init.
Proof.
  repeat split; cbn; intros; try discriminate; set_solver.
Qed.

Lemma same_addr_self r : same_addr (addr r) r = true.
Proof. unfold same_addr. now apply bool_decide_eq_true_2. Qed.

Lemma occ_elem (a : nat) (r : ReqRef) (l : list ReqRef) :
  r ∈ l -> addr r = a -> (1 <= occ (same_addr a) l)%nat.
Proof.
  intros Hin Ha. induction Hin as [r l|r r' l Hin IH]; rewrite occ_cons.
  - unfold same_addr. rewrite bool_decide_eq_true_2 by exact Ha. lia.
  - specialize (IH Ha). lia.
Qed.

Lemma occ_elem_tasks (a : nat) (t : ReqRef * TaskPC) ts :
  t ∈ ts -> addr (fst t) = a -> (1 <= occ (same_addr a) (map fst ts))%nat.
Proof.
  intros Hin Ha. apply (occ_elem a (fst t)); [|exact Ha].
  apply list_elem_of_fmap. eauto.
Qed.

Lemma filter_ok_step cap a s s' :
  step cap a s = Some s' -> unique s -> filter_ok s -> filter_ok s'.
Proof.
  intros Hstep U (J1 & J2 & J3).
  destruct a; step_cases Hstep; try (repeat split; assumption).
  all: project.
  (* the dispatcher receives *)
  1-4: repeat split; [exact J1 | | exact J3]; cbn [dispatcher];
    intros r0 [= <-] a' r'; try discriminate.
  1: { intros Hl. eapply Range_found_false; eauto. }
  (* the dispatcher discards *)
  1: { repeat split; [exact J1 | discriminate | exact J3]. }
  (* the dispatcher stores and launches *)
  1: { match goal with H : dispatcher s = DispAccept ?r |- _ =>
         rename H into Hd; pose proof (J2 r eq_refl) as J2r end.
       repeat split; project; [ | discriminate | ].
       - intros a1 a2 r1 r2.
         rewrite !lookup_insert. repeat case_decide; simplify_eq; try done.
         + intros [= <-] Hl He. rewrite Equals_sym, (J2r _ _ Hl) in He. done.
         + intros Hl [= <-] He. rewrite (J2r _ _ Hl) in He. done.
         + apply J1.
       - intros t Hin. apply elem_of_app in Hin as [Hin|Hin].
         + rewrite lookup_insert_ne; [now apply J3|].
           intros Heq. specialize (U (addr r)).
           unfold live in U. rewrite Hd in U. cbn [disp_held] in U.
           rewrite !occ_app, occ_cons in U.
           pose proof (occ_elem_tasks (addr r) t _ Hin (eq_sym Heq)).
           rewrite same_addr_self in U.
           destruct (_ <? _)%nat; lia.
         + apply list_elem_of_singleton in Hin as ->. cbn.
           apply lookup_insert_eq. }
  (* a task moves on *)
  1-2: split_tasks; repeat split; [exact J1 | exact J2 | ]; project;
    intros t Hin; rewrite elem_of_app, elem_of_cons in Hin;
    destruct Hin as [Hin | [-> | Hin]];
    [ apply J3; rewrite elem_of_app; now left
    | match type of J3 with
      | context [(?r0, ?pc0) :: _] =>
          apply (J3 (r0, pc0)); rewrite elem_of_app, elem_of_cons;
          right; now left
      end
    | apply J3; rewrite elem_of_app, elem_of_cons; right; now right ].
  (* a task removes itself from the filter *)
  match goal with H : tasks s !! ?i = Some ?t |- _ => rename H into Ht end.
  repeat split; project.
  - intros a1 a2 r1 r2 H1 H2. apply lookup_delete_Some in H1 as [_ H1].
    apply lookup_delete_Some in H2 as [_ H2]. now apply J1.
  - intros r0 Hd a' r' Hl. apply lookup_delete_Some in Hl as [_ Hl]. eauto.
  - intros t Hin. rewrite tasks_delete_split in Hin.
    specialize (U (addr r)). unfold live in U.
    rewrite (tasks_split _ _ _ Ht) in U.
    rewrite !map_app in U. cbn [map fst] in U.
    rewrite !occ_app, occ_cons in U.
    rewrite same_addr_self in U.
    rewrite lookup_delete_ne.
    + apply J3. rewrite (tasks_split _ _ _ Ht).
      rewrite elem_of_app, elem_of_cons.
      apply elem_of_app in Hin as [Hin|Hin]; [now left | right; now right].
    + intros Heq.
      apply elem_of_app in Hin as [Hin|Hin];
        pose proof (occ_elem_tasks (addr r) t _ Hin (eq_sym Heq));
        destruct (_ <? _)%nat; lia.
Qed.

(** *** Reachable states *)

Lemma invariant_init : invariant init.
Proof.
  repeat apply conj;
    [ apply counted_init | apply counted_init | apply unique_init
    | apply guarded_init | apply filter_ok_init .. | constructor ].
Qed.

Lemma invariant_step cap a s s' :
  step cap a s = Some s' -> invariant s -> invariant s'.
Proof.
  intros Hstep (C & U & G & F & D). repeat apply conj.
  - eapply counted_step; eauto.
  - eapply counted_step; eauto.
  - eapply unique_step; eauto.
  - eapply guarded_step; eauto.
  - eapply filter_ok_step; eauto.
  - eapply filter_ok_step; eauto.
  - eapply filter_ok_step; eauto.
  - eapply done_layout_step; eauto.
Qed.

Lemma run_invariant cap acts s s' :
  run cap acts s = Some s' -> invariant s -> invariant s'.
Proof.
  revert s. induction acts as [|a acts IH]; intros s Hrun Hinv; cbn in Hrun.
  - now injection Hrun as <-.
  - destruct (step cap a s) as [s1|] eqn:Hstep; [|discriminate].
    eapply IH; [exact Hrun|]. eapply invariant_step; eauto.
Qed.

Lemma reachable_invariant cap s : reachable cap s -> invariant s.
Proof. intros [acts Hrun]. eapply run_invariant; [exact Hrun | apply invariant_init]. Qed.

Lemma run_app cap acts1 acts2 s s1 s2 :
  run cap acts1 s = Some s1 -> run cap acts2 s1 = Some s2 ->
  run cap (acts1 ++ acts2) s = Some s2.
Proof.
  revert s. induction acts1 as [|a acts1 IH]; intros s H1 H2; cbn in *.
  - now injection H1 as ->.
  - destruct (step cap a s); [eauto | discriminate].
Qed.

Lemma step_trace_extends cap a s s' :
  step cap a s = Some s' -> exists evs, trace s' = trace s ++ evs.
Proof.
  intros Hstep. destruct a; step_cases Hstep; project;
    try (eexists; reflexivity).
  all: exists []; now rewrite app_nil_r.
Qed.

Lemma run_trace_extends cap acts s s' :
  run cap acts s = Some s' -> exists evs, trace s' = trace s ++ evs.
Proof.
  revert s. induction acts as [|a acts IH]; intros s Hrun; cbn in Hrun.
  - injection Hrun as <-. exists []. now rewrite app_nil_r.
  - destruct (step cap a s) as [s1|] eqn:Hstep; [|discriminate].
    destruct (step_trace_extends _ _ _ _ Hstep) as [evs1 E1].
    destruct (IH _ Hrun) as [evs2 E2].
    exists (evs1 ++ evs2). now rewrite E2, E1, app_assoc.
Qed.

(** *** The handling of a received request always reaches its release *)

Lemma same_ref_self r : same_ref r r = true.
Proof. unfold same_ref. now apply bool_decide_eq_true_2. Qed.

Lemma done_calls_log p s evs :
  done_calls p (log s evs) = (done_calls p s + count (is_done p) evs)%nat.
Proof. unfold done_calls. cbn. apply count_app. Qed.

Lemma finish_discard cap s why r :
  dispatcher s = DispDiscard why r ->
  exists acts s', run cap acts s = Some s'
                  /\ (1 <= done_calls (same_ref r) s')%nat.
Proof.
  intros Hd. exists [ActDispatch true]. eexists. split.
  - cbn. unfold dispatch_step. rewrite Hd. reflexivity.
  - rewrite done_calls_log, count_cons. cbn [is_done].
    rewrite same_ref_self. lia.
Qed.

Lemma finish_task_done cap s i r :
  tasks s !! i = Some (r, TaskDone) ->
  exists acts s', run cap acts s = Some s'
                  /\ (1 <= done_calls (same_ref r) s')%nat.
Proof.
  intros Ht. exists [ActTask i ([], None)]. eexists. split.
  - cbn. unfold task_step. rewrite Ht. reflexivity.
  - rewrite done_calls_log, count_cons. cbn [is_done].
    rewrite same_ref_self. lia.
Qed.

Lemma finish_task_grow cap s i r :
  tasks s !! i = Some (r, TaskGrow) ->
  exists acts s', run cap acts s = Some s'
                  /\ (1 <= done_calls (same_ref r) s')%nat.
Proof.
  intros Ht.
  set (s1 := log (with_tasks s (<[i := (r, TaskDone)]> (tasks s)))
               (snd (DoAutomaticVolumeGrow (fun _ _ => ([], None)) (deref r)))).
  assert (H1 : step cap (ActTask i ([], None)) s = Some s1).
  { cbn. unfold task_step. rewrite Ht. reflexivity. }
  assert (Ht1 : tasks s1 !! i = Some (r, TaskDone)).
  { cbn. apply list_lookup_insert_eq. eapply lookup_lt_Some; eauto. }
  destruct (finish_task_done cap s1 i r Ht1) as (acts & s' & Hrun & Hd).
  exists (ActTask i ([], None) :: acts), s'. split; [|exact Hd].
  cbn [run]. now rewrite H1.
Qed.

Lemma finish_accept cap s r :
  dispatcher s = DispAccept r ->
  exists acts s', run cap acts s = Some s'
                  /\ (1 <= done_calls (same_ref r) s')%nat.
Proof.
  intros Hd.
  set (s1 := log (with_dispatcher
                    (with_tasks
                       (with_filter s (<[addr r := deref r]> (filter s)))
                       (tasks s ++ [(r, TaskGrow)]))
                    DispRecv)
               [EvFilterStore r]).
  assert (H1 : step cap (ActDispatch true) s = Some s1).
  { cbn. unfold dispatch_step. rewrite Hd. reflexivity. }
  assert (Ht1 : tasks s1 !! length (tasks s) = Some (r, TaskGrow)).
  { cbn. now apply list_lookup_middle. }
  destruct (finish_task_grow cap s1 _ r Ht1) as (acts & s' & Hrun & Hdone).
  exists (ActDispatch true :: acts), s'. split; [|exact Hdone].
  cbn [run]. now rewrite H1.
Qed.

Lemma running_elem r ts :
  r ∈ running ts ->
  exists i, ts !! i = Some (r, TaskGrow) \/ ts !! i = Some (r, TaskDone).
Proof.
  intros Hin. apply list_elem_of_In, in_flat_map in Hin as ([r' pc] & Ht & Hr).
  apply list_elem_of_In, list_elem_of_lookup_1 in Ht as [i Hi].
  exists i. destruct pc; cbn in Hr; try contradiction;
    destruct Hr as [<-|[]]; eauto.
Qed.

Lemma finish cap s r :
  r ∈ in_progress s ->
  exists acts s', run cap acts s = Some s'
                  /\ (1 <= done_calls (same_ref r) s')%nat.
Proof.
  unfold in_progress. rewrite elem_of_app. intros [Hin|Hin].
  - destruct (dispatcher s) as [|why r'|r'] eqn:Hd; cbn in Hin.
    + now apply elem_of_nil in Hin.
    + apply list_elem_of_singleton in Hin as ->. eapply finish_discard; eauto.
    + apply list_elem_of_singleton in Hin as ->. eapply finish_accept; eauto.
  - destruct (running_elem _ _ Hin) as [i [Hi|Hi]].
    + eapply finish_task_grow; eauto.
    + eapply finish_task_done; eauto.
Qed.

Lemma count_le p q tr :
  (forall e, p e = true -> q e = true) -> (count p tr <= count q tr)%nat.
Proof.
  intros Hpq. induction tr as [|e tr IH]; [reflexivity|].
  rewrite !count_cons. specialize (Hpq e).
  destruct (p e), (q e); try lia; try discriminate (Hpq eq_refl).
Qed.

Lemma count_elem p (e : Event) tr :
  e ∈ tr -> p e = true -> (1 <= count p tr)%nat.
Proof.
  intros Hin Hp. induction Hin as [e tr|e e' tr Hin IH]; rewrite count_cons.
  - rewrite Hp. lia.
  - specialize (IH Hp). lia.
Qed.

Lemma occ_pos_elem r l : (1 <= occ (same_ref r) l)%nat -> r ∈ l.
Proof.
  induction l as [|x l IH]; [cbn; lia|].
  rewrite occ_cons. unfold same_ref at 1. case_bool_decide.
  - subst. intros _. apply elem_of_cons. now left.
  - intros H1. apply elem_of_cons. right. apply IH. lia.
Qed.

Lemma released_once s r :
  invariant s -> EvReceive r ∈ trace s ->
  (done_calls (same_ref r) s + occ (same_ref r) (in_progress s) = 1)%nat.
Proof.
  intros ((K1 & K2) & _) Hin.
  rewrite K2.
  assert (Hlo : (1 <= received (same_ref r) s)%nat).
  { apply (count_elem _ _ _ Hin). cbn. apply same_ref_self. }
  assert (Hhi : (received (same_ref r) s <= received (same_addr (addr r)) s)%nat).
  { apply count_le. intros [] He; try discriminate. cbn in *.
    unfold same_ref in He. apply bool_decide_eq_true in He as ->.
    apply same_addr_self. }
  specialize (K1 (addr r)). destruct (_ <? _)%nat; lia.
Qed.

(** *** The claims about the pipeline *)

(** C2. In every reachable state of the pipeline, for every request the
    dispatcher has consumed from the stream: DoneGrowRequest has been
    called for it once and its handling is over, or not yet and it is
    still with the dispatcher or its growth task; every such call is on
    the layout the request resolves to; and from that state the handling
    can always be run to its end, after which the number of calls is one
    and stays one. This holds whichever way the request goes: discarded
    because the server is not leader, because an equal request is in the
    filter, because growth is no longer needed, or accepted and grown with
    or without error. *)
Theorem DoneGrowRequest_exactly_once cap acts s r :
  run cap acts init = Some s ->
  EvReceive r ∈ trace s ->
  (done_calls (same_ref r) s + occ (same_ref r) (in_progress s) = 1)%nat
  /\ (forall vl, EvDoneGrowRequest vl r ∈ trace s -> vl = layout_of (deref r))
  /\ exists acts' s',
       run cap acts' s = Some s'
       /\ done_calls (same_ref r) s' = 1%nat
       /\ occ (same_ref r) (in_progress s') = 0%nat
       /\ forall acts'' s'',
            run cap acts'' s' = Some s'' ->
            done_calls (same_ref r) s'' = 1%nat.
Proof.
  intros Hrun Hrecv.
  assert (Hinv : invariant s) by (apply (reachable_invariant cap); now exists acts).
  pose proof (released_once s r Hinv Hrecv) as Honce.
  split; [exact Honce|]. split.
  - intros vl Hin. destruct Hinv as (_ & _ & _ & _ & D).
    rewrite Forall_forall in D. exact (D _ Hin).
  - assert (Hfin : exists acts' s',
               run cap acts' s = Some s'
               /\ (1 <= done_calls (same_ref r) s')%nat).
    { destruct (occ (same_ref r) (in_progress s)) as [|n] eqn:Hocc.
      - exists [], s. split; [reflexivity | lia].
      - apply finish. apply occ_pos_elem. lia. }
    destruct Hfin as (acts' & s' & Hrun' & Hdone).
    assert (Hinv' : invariant s') by (eapply run_invariant; eauto).
    assert (Hrecv' : EvReceive r ∈ trace s').
    { destruct (run_trace_extends _ _ _ _ Hrun') as [evs ->].
      apply elem_of_app. now left. }
    pose proof (released_once s' r Hinv' Hrecv') as Honce'.
    exists acts', s'. repeat split; [exact Hrun' | lia | lia |].
    intros acts'' s'' Hrun''.
    assert (Hinv'' : invariant s'') by (eapply run_invariant; eauto).
    destruct (run_trace_extends _ _ _ _ Hrun'') as [evs E].
    assert (Hrecv'' : EvReceive r ∈ trace s'').
    { rewrite E. apply elem_of_app. now left. }
    pose proof (released_once s'' r Hinv'' Hrecv'') as Honce''.
    assert ((done_calls (same_ref r) s' <= done_calls (same_ref r) s'')%nat).
    { unfold done_calls. rewrite E, count_app. lia. }
    lia.
Qed.

(** C3 (as amended). In every reachable state of the pipeline, a layout
    whose guard is set has at least one pending grow request; the scanner
    skips a layout whose guard is set when it comes to it; but inside a
    visit, for every data center that ShouldGrowVolumesByDataNode selects,
    the per-DC loop calls AddGrowRequest and goes on to publish a request
    for that layout and data center whether or not the guard is already
    set. *)
Theorem guard_has_pending_request cap acts s :
  run cap acts init = Some s ->
  (forall vl, guard s vl = true -> (1 <= length (pending_for vl s))%nat)
  /\ (forall o dcs vlc vlcs,
         scanner s = ScanLayouts dcs (vlc :: vlcs) ->
         guard s vlc = true ->
         step cap (ActScan o) s = Some (with_scanner s (ScanLayouts dcs vlcs)))
  /\ (forall o vlc dc todo dcs vlcs,
         scanner s = ScanDataCenters vlc (dc :: todo) dcs vlcs ->
         ShouldGrowVolumesByDataNode o = true ->
         exists r,
           step cap (ActScan o) s
           = Some (log (alloc (with_scanner (AddGrowRequest s vlc)
                                 (ScanSend r (ScanDataCenters vlc todo dcs vlcs))))
                     [EvAddGrowRequest vlc])
           /\ layout_of (deref r) = vlc
           /\ topology.DataCenter (topology.Option (deref r)) = dc).
Proof.
  intros Hrun.
  assert (Hinv : invariant s) by (apply (reachable_invariant cap); now exists acts).
  split; [|split].
  - intros vl Hg. destruct Hinv as (_ & _ & G & _).
    destruct (G vl Hg) as (r & Hin & Hl).
    assert (Hin' : In r (pending_for vl s)).
    { unfold pending_for. apply filter_In. split.
      - now apply list_elem_of_In.
      - now apply bool_decide_eq_true. }
    destruct (pending_for vl s); [contradiction | cbn; lia].
  - intros o dcs vlc vlcs Hs Hg. cbn. unfold scan_step, HasGrowRequest.
    now rewrite Hs, Hg.
  - intros o vlc dc todo dcs vlcs Hs Ho. eexists. split.
    + cbn. unfold scan_step. rewrite Hs, Ho. reflexivity.
    + split; [apply layout_of_set_DataCenter | reflexivity].
Qed.

Lemma tasks_distinct s i j (t1 t2 : ReqRef * TaskPC) :
  unique s ->
  tasks s !! i = Some t1 -> tasks s !! j = Some t2 ->
  addr (fst t1) = addr (fst t2) -> i = j.
Proof.
  intros U.
  assert (Hlt : forall i j (t1 t2 : ReqRef * TaskPC),
             (i < j)%nat ->
             tasks s !! i = Some t1 -> tasks s !! j = Some t2 ->
             addr (fst t1) = addr (fst t2) -> False).
  { clear i j t1 t2. intros i j t1 t2 Hij H1 H2 Ha.
    specialize (U (addr (fst t1))). unfold live in U.
    rewrite (tasks_split _ _ _ H1) in U.
    rewrite !map_app in U. cbn [map] in U.
    rewrite !occ_app, occ_cons, same_addr_self in U.
    assert (Hin : t2 ∈ drop (S i) (tasks s)).
    { apply list_elem_of_lookup. exists (j - S i)%nat.
      rewrite lookup_drop, <- H2. f_equal. lia. }
    pose proof (occ_elem_tasks _ _ _ Hin (eq_sym Ha)).
    destruct (_ <? _)%nat; lia. }
  intros H1 H2 Ha.
  destruct (Nat.lt_trichotomy i j) as [Hij|[Hij|Hij]]; [|exact Hij|].
  - exfalso. eapply Hlt; eauto.
  - exfalso. eapply (Hlt j i); eauto.
Qed.

(** C4. In every reachable state of the pipeline the in-flight filter
    holds no two requests that compare equal, and no two launched growth
    tasks have equal requests; a request that reaches the dispatcher while
    a launched task has an equal request is discarded (as a duplicate on the
    leader, as buffered work off the leader): the dispatcher calls
    DoneGrowRequest on its layout and neither stores nor launches it. *)
Theorem equal_requests_accepted_at_most_once cap acts s :
  run cap acts init = Some s ->
  (forall a1 a2 r1 r2,
      filter s !! a1 = Some r1 -> filter s !! a2 = Some r2 ->
      Equals r1 r2 = true -> a1 = a2)
  /\ (forall i j t1 t2,
         tasks s !! i = Some t1 -> tasks s !! j = Some t2 ->
         Equals (deref (fst t1)) (deref (fst t2)) = true -> i = j)
  /\ (forall r rest shouldGrow t,
         dispatcher s = DispRecv -> chan s = r :: rest ->
         t ∈ tasks s -> Equals (deref (fst t)) (deref r) = true ->
         exists s1 s2,
           step cap (ActDispatch shouldGrow) s = Some s1
           /\ dispatcher s1
              = DispDiscard (if leader s then Duplicate else NotLeader) r
           /\ step cap (ActDispatch shouldGrow) s1 = Some s2
           /\ trace s2 = trace s ++ [EvReceive r;
                                     EvDoneGrowRequest (layout_of (deref r)) r]
           /\ tasks s2 = tasks s
           /\ filter s2 = filter s).
Proof.
  intros Hrun.
  assert (Hinv : invariant s) by (apply (reachable_invariant cap); now exists acts).
  destruct Hinv as (_ & U & _ & (J1 & J2 & J3) & _).
  split; [exact J1|]. split.
  - intros i j t1 t2 H1 H2 He.
    apply (tasks_distinct s i j t1 t2 U H1 H2).
    apply (J1 _ _ (deref (fst t1)) (deref (fst t2))); [| |exact He];
      apply J3; eapply list_elem_of_lookup_2; eauto.
  - intros r rest shouldGrow t Hd Hc Hin He.
    assert (Hfound : Range_found (filter s) (deref r) = true).
    { apply Range_found_spec. exists (addr (fst t)), (deref (fst t)).
      split; [now apply J3 | exact He]. }
    set (s1 := with_dispatcher (log (with_chan s rest) [EvReceive r])
                 (DispDiscard (if leader s then Duplicate else NotLeader) r)).
    exists s1,
      (log (with_dispatcher (DoneGrowRequest s1 (layout_of (deref r))) DispRecv)
         [EvDoneGrowRequest (layout_of (deref r)) r]).
    split.
    { cbn. unfold dispatch_step. rewrite Hd, Hc. project.
      unfold s1. destruct (leader s); cbn [negb]; [|reflexivity].
      rewrite Hfound. reflexivity. }
    split; [reflexivity|]. split.
    { unfold s1. destruct (leader s); reflexivity. }
    cbn. rewrite <- app_assoc. repeat split.
Qed.

(** C5. A scan iteration that finds the server not leader does nothing:
    however often the scanner runs from the head of its loop while
    IsLeader answers false, the state is unchanged, so no request is
    published, AddGrowRequest is not called and nothing is logged. *)
Theorem scanner_idle_when_not_leader cap s os :
  scanner s = ScanTop -> leader s = false ->
  run cap (map ActScan os) s = Some s.
Proof.
  intros Hs Hl. induction os as [|o os IH]; [reflexivity|].
  cbn. unfold scan_step. rewrite Hs, Hl. cbn [negb]. exact IH.
Qed.

(** *** The claims on concrete runs *)

Ltac find_in_list :=
  apply list_elem_of_In; vm_compute;
  repeat (first [left; reflexivity | right]).

(** Witness for C2: [request0] has been received and is with the
    dispatcher; no call yet, one to come. *)
Lemma DoneGrowRequest_exactly_once_witness :
  run 1 Sample.one_request_received init = Some Sample.after_receive
  /\ EvReceive Sample.request0 ∈ trace Sample.after_receive
  /\ (done_calls (same_ref Sample.request0) Sample.after_receive
      + occ (same_ref Sample.request0) (in_progress Sample.after_receive)
      = 1)%nat.
Proof.
  assert (Hrun : run 1 Sample.one_request_received init
                 = Some Sample.after_receive) by (vm_compute; reflexivity).
  assert (Hin : EvReceive Sample.request0 ∈ trace Sample.after_receive)
    by find_in_list.
  split; [exact Hrun|]. split; [exact Hin|].
  exact (proj1 (DoneGrowRequest_exactly_once 1 Sample.one_request_received
                  Sample.after_receive Sample.request0 Hrun Hin)).
Defined.

(** The four paths run to their end: one call each, and the guard is clear
    again. *)
Example accepted_path_releases_once :
  option_map (fun s => (done_calls (same_ref Sample.request0) s,
                        guard s Sample.layout, length (tasks s)))
    (run 1 Sample.one_request_accepted init)
  = Some (1%nat, false, 0%nat).
Proof. vm_compute. reflexivity. Qed.

Example no_longer_needed_path_releases_once :
  option_map (fun s => (done_calls (same_ref (Sample.collection_request 0)) s,
                        guard s Sample.layout, length (tasks s),
                        grow_attempts (trace s)))
    (run 1 Sample.no_longer_needed init)
  = Some (1%nat, false, 0%nat, []).
Proof. vm_compute. reflexivity. Qed.

Example duplicate_path_releases_once :
  option_map (fun s => (done_calls (same_ref (Sample.collection_request 1)) s,
                        guard s Sample.layout,
                        map (fun t => addr (fst t)) (tasks s),
                        length (grow_attempts (trace s))))
    (run 1 Sample.duplicate_discarded init)
  = Some (1%nat, false, [0%nat], 1%nat).
Proof. vm_compute. reflexivity. Qed.

Example not_leader_path_releases_once :
  option_map (fun s => (done_calls (same_ref Sample.request0) s,
                        guard s Sample.layout, length (tasks s),
                        broadcasts (trace s)))
    (run 1 Sample.demoted_before_receive init)
  = Some (1%nat, false, 0%nat, []).
Proof. vm_compute. reflexivity. Qed.

(** C3 (as stated) fails: in one scan iteration of a leader whose single
    layout is short in two data centers, the scanner publishes two
    requests for that layout; both wait in the channel, none has been
    received, and the guard is set. *)
Lemma scan_publishes_twice_counterexample :
  run 2 Sample.one_scan init = Some Sample.after_one_scan
  /\ guard Sample.after_one_scan Sample.layout = true
  /\ map addr (chan Sample.after_one_scan) = [0; 1]%nat
  /\ received (fun _ => true) Sample.after_one_scan = 0%nat
  /\ length (pending_for Sample.layout Sample.after_one_scan) = 2%nat.
Proof.
  split; [vm_compute; reflexivity|].
  split; [vm_compute; reflexivity|].
  split; [vm_compute; reflexivity|].
  split; vm_compute; reflexivity.
Qed.

(** Whatever the capacity of the channel, unbuffered included, two
    requests for one layout are pending at once when the dispatcher
    receives the first while the scanner goes on to the next data
    center. *)
Lemma two_pending_at_any_capacity cap :
  let s := Sample.run_from_init cap Sample.one_scan_with_receive in
  run cap Sample.one_scan_with_receive init = Some s
  /\ guard s Sample.layout = true
  /\ length (pending_for Sample.layout s) = 2%nat.
Proof.
  destruct cap;
    (split; [vm_compute; reflexivity|]; split; vm_compute; reflexivity).
Qed.

(** Witness for C3: after the scan of [Sample.one_scan] the guard of the
    layout is set and requests for it are pending. *)
Lemma guard_has_pending_request_witness :
  run 2 Sample.one_scan init = Some Sample.after_one_scan
  /\ guard Sample.after_one_scan Sample.layout = true
  /\ (1 <= length (pending_for Sample.layout Sample.after_one_scan))%nat.
Proof.
  assert (Hrun : run 2 Sample.one_scan init = Some Sample.after_one_scan)
    by (vm_compute; reflexivity).
  assert (Hg : guard Sample.after_one_scan Sample.layout = true)
    by (vm_compute; reflexivity).
  split; [exact Hrun|]. split; [exact Hg|].
  exact (proj1 (guard_has_pending_request 2 Sample.one_scan
                  Sample.after_one_scan Hrun) Sample.layout Hg).
Defined.

(** Witness for C4: the republished request arrives while the first is
    still in the filter, and is discarded with DoneGrowRequest. *)
Lemma equal_requests_accepted_at_most_once_witness :
  run 1 Sample.republished_while_in_filter init = Some Sample.after_republish
  /\ (Sample.collection_request 0, TaskDelete) ∈ tasks Sample.after_republish
  /\ chan Sample.after_republish = [Sample.collection_request 1]
  /\ exists s1 s2,
       step 1 (ActDispatch true) Sample.after_republish = Some s1
       /\ dispatcher s1 = DispDiscard Duplicate (Sample.collection_request 1)
       /\ step 1 (ActDispatch true) s1 = Some s2
       /\ trace s2
          = trace Sample.after_republish
              ++ [EvReceive (Sample.collection_request 1);
                  EvDoneGrowRequest
                    (layout_of (deref (Sample.collection_request 1)))
                    (Sample.collection_request 1)]
       /\ tasks s2 = tasks Sample.after_republish
       /\ filter s2 = filter Sample.after_republish.
Proof.
  assert (Hrun : run 1 Sample.republished_while_in_filter init
                 = Some Sample.after_republish) by (vm_compute; reflexivity).
  assert (Hin : (Sample.collection_request 0, TaskDelete)
                ∈ tasks Sample.after_republish) by find_in_list.
  assert (Hc : chan Sample.after_republish = [Sample.collection_request 1])
    by (vm_compute; reflexivity).
  split; [exact Hrun|]. split; [exact Hin|]. split; [exact Hc|].
  exact (proj2 (proj2 (equal_requests_accepted_at_most_once 1
                  Sample.republished_while_in_filter
                  Sample.after_republish Hrun))
           (Sample.collection_request 1) [] true
           (Sample.collection_request 0, TaskDelete) eq_refl Hc Hin eq_refl).
Defined.

(** Witness for C5: the scanner of a server that is not leader, run twice
    from the initial state. *)
Lemma scanner_idle_when_not_leader_witness :
  run 1 (map ActScan [Sample.short_in_every_dc; Sample.short_in_every_dc]) init
  = Some init.
Proof.
  exact (scanner_idle_when_not_leader 1 init
           [Sample.short_in_every_dc; Sample.short_in_every_dc]
           eq_refl eq_refl).
Defined.

End PipelineProofs.

(** * Further properties *)

(** ** The volume id of an input *)

Lemma prefix_empty (s : string) : String.prefix "" s = true.
Proof. now destruct s. Qed.

(** The index of the first comma, one character at a time. *)
Lemma index_comma_cons (c : Ascii.ascii) (s : string) :
  String.index 0 "," (String c s)
  = if Ascii.eqb c ","%char then Some 0%nat
    else option_map S (String.index 0 "," s).
Proof.
  cbn [String.index String.prefix].
  destruct (Ascii.ascii_dec ","%char c) as [<-|Hne].
  - rewrite prefix_empty. reflexivity.
  - destruct (Ascii.eqb_spec c ","%char); [congruence|].
    destruct (String.index 0 "," s); reflexivity.
Qed.

Lemma index_comma_nil : String.index 0 "," "" = None.
Proof. reflexivity. Qed.

Lemma substring_0_cons (c : Ascii.ascii) (n : nat) (s : string) :
  String.substring 0 (S n) (String c s) = String c (String.substring 0 n s).
Proof. reflexivity. Qed.

Lemma substring_0_0 (s : string) : String.substring 0 0 s = "".
Proof. now destruct s. Qed.

(** Before the first comma there is no comma. *)
Lemma no_comma_before_first (s : string) (n : nat) :
  String.index 0 "," s = Some n ->
  String.index 0 "," (String.substring 0 n s) = None.
Proof.
  revert n. induction s as [|c s IH]; intros n; [discriminate|].
  rewrite index_comma_cons. destruct (Ascii.eqb_spec c ","%char) as [->|Hne].
  - intros [= <-]. reflexivity.
  - destruct (String.index 0 "," s) as [m|] eqn:Hi; [|discriminate].
    intros [= <-]. rewrite substring_0_cons, index_comma_cons.
    destruct (Ascii.eqb_spec c ","%char); [congruence|].
    now rewrite (IH m eq_refl).
Qed.

Lemma index_comma_app (v rest : string) :
  String.index 0 "," v = None ->
  String.index 0 "," (v +:+ "," +:+ rest) = Some (String.length v).
Proof.
  induction v as [|c v IH]; intros Hv.
  - change (String.index 0 "," (String ","%char rest) = Some 0%nat).
    rewrite index_comma_cons. reflexivity.
  - rewrite index_comma_cons in Hv.
    destruct (Ascii.eqb_spec c ","%char) as [->|Hne]; [discriminate|].
    destruct (String.index 0 "," v) eqn:Hi; [discriminate|].
    change (String c v +:+ "," +:+ rest) with (String c (v +:+ "," +:+ rest)).
    rewrite index_comma_cons.
    destruct (Ascii.eqb_spec c ","%char); [congruence|].
    now rewrite (IH eq_refl).
Qed.

Lemma substring_0_app (v rest : string) :
  String.substring 0 (String.length v) (v +:+ rest) = v.
Proof.
  induction v as [|c v IH]; [apply substring_0_0|].
  change (String c v +:+ rest) with (String c (v +:+ rest)).
  cbn [String.length]. rewrite substring_0_cons. now rewrite IH.
Qed.

Lemma is_file_id_false_of_no_comma (s : string) :
  String.index 0 "," s = None -> is_file_id s = false.
Proof. intros H. unfold is_file_id, strings.Index. now rewrite H. Qed.

Lemma extracted_vid_cases (s : string) :
  match String.index 0 "," s with
  | Some (S n) => extracted_vid s = String.substring 0 (S n) s
                  /\ is_file_id s = true
  | _ => extracted_vid s = s /\ is_file_id s = false
  end.
Proof.
  unfold extracted_vid, is_file_id, strings.Index, strings.slice_to.
  destruct (String.index 0 "," s) as [[|n]|]; try (split; reflexivity).
  replace (0 <? Z.of_nat (S n)) with true by (symmetry; apply Z.ltb_lt; lia).
  now rewrite Nat2Z.id.
Qed.

(** X1. The volume id extracted from an input is stable: extracting again
    changes nothing, and an extracted id is never itself treated as a file
    id, so it gets no token when looked up on its own. *)
Theorem extracted_vid_idempotent (s : string) :
  extracted_vid (extracted_vid s) = extracted_vid s
  /\ is_file_id (extracted_vid s) = false.
Proof.
  pose proof (extracted_vid_cases s) as Hs.
  destruct (String.index 0 "," s) as [[|n]|] eqn:Hi.
  - destruct Hs as [-> Hf]. unfold extracted_vid. now rewrite Hf.
  - destruct Hs as [-> _].
    pose proof (no_comma_before_first s (S n) Hi) as Hnone.
    pose proof (is_file_id_false_of_no_comma _ Hnone) as Hf.
    unfold extracted_vid. now rewrite Hf.
  - destruct Hs as [-> Hf]. unfold extracted_vid. now rewrite Hf.
Qed.

Lemma file_id_index (v k : string) :
  has_comma v = false ->
  String.index 0 "," (file_id v k) = Some (String.length v).
Proof.
  unfold has_comma, file_id. intros Hc.
  destruct (String.index 0 "," v) eqn:Hv; [discriminate|].
  now apply index_comma_app.
Qed.

(** An input whose first comma ends a non-empty prefix. *)
Lemma extracted_vid_prefix (v rest : string) :
  v <> "" ->
  String.index 0 "," (v +:+ rest) = Some (String.length v) ->
  is_file_id (v +:+ rest) = true /\ extracted_vid (v +:+ rest) = v.
Proof.
  intros Hne Hi.
  pose proof (extracted_vid_cases (v +:+ rest)) as Hs. rewrite Hi in Hs.
  destruct v as [|c v]; [congruence|]. cbn [String.length] in Hs.
  destruct Hs as [Hvid Hf]. split; [exact Hf|].
  rewrite Hvid. exact (substring_0_app (String c v) rest).
Qed.

(** X2. Round trip of file ids: for a non-empty volume id [v] without a
    comma and any key [k], the file id [v,k] is treated as a file id and
    its extracted volume id is [v]. *)
Theorem extracted_vid_of_file_id (v k : string) :
  v <> "" -> has_comma v = false ->
  is_file_id (file_id v k) = true /\ extracted_vid (file_id v k) = v.
Proof.
  intros Hne Hc. pose proof (file_id_index v k Hc) as Hi.
  unfold file_id in *. now apply extracted_vid_prefix.
Qed.

Lemma extracted_vid_of_file_id_witness :
  is_file_id (file_id "7" "abc") = true /\ extracted_vid (file_id "7" "abc") = "7".
Proof.
  apply (extracted_vid_of_file_id "7" "abc"); [discriminate | reflexivity].
Defined.

(** X3. The entry of an input depends on the input only through its volume
    id: all file ids of one volume get the same entry, token included,
    because the token is generated for the file id recorded in the lookup
    result and not for the input. *)
Theorem LookupVolume_same_volume_same_entry
    (GenJwtForVolumeServer : string -> Z -> string -> string)
    (SigningKey : string) (ExpiresAfterSec : Z)
    (vls : gmap string operation.LookupResult) (v k1 k2 : string) :
  v <> "" -> has_comma v = false ->
  code_entry GenJwtForVolumeServer SigningKey ExpiresAfterSec vls (file_id v k1)
  = code_entry GenJwtForVolumeServer SigningKey ExpiresAfterSec vls (file_id v k2).
Proof.
  intros Hne Hc.
  pose proof (file_id_index v k1 Hc) as Hi1.
  pose proof (file_id_index v k2 Hc) as Hi2.
  unfold file_id in *.
  destruct (extracted_vid_prefix v ("," +:+ k1) Hne Hi1) as [Hf1 Hv1].
  destruct (extracted_vid_prefix v ("," +:+ k2) Hne Hi2) as [Hf2 Hv2].
  unfold code_entry. now rewrite Hf1, Hf2, Hv1, Hv2.
Qed.

Lemma LookupVolume_same_volume_same_entry_witness :
  code_entry Sample.GenJwt "key" 10 Sample.volumeLocations37 (file_id "7" "abc")
  = code_entry Sample.GenJwt "key" 10 Sample.volumeLocations37 (file_id "7" "01ff").
Proof.
  apply (LookupVolume_same_volume_same_entry Sample.GenJwt "key" 10
           Sample.volumeLocations37 "7" "abc" "01ff");
    [discriminate | reflexivity].
Defined.

(** ** The size and the content of a LookupVolume response *)

Lemma omap_length_filter {A B} (f : A -> option B) (l : list A) :
  length (omap f l)
  = length (List.filter (fun x => bool_decide (is_Some (f x))) l).
Proof.
  induction l as [|x l IH]; [reflexivity|]. cbn.
  destruct (f x) as [y|] eqn:Hx.
  - rewrite bool_decide_eq_true_2 by eauto. cbn. now f_equal.
  - rewrite bool_decide_eq_false_2 by (intros [? ?]; congruence). exact IH.
Qed.

Lemma code_entry_is_Some G K E vls s :
  is_Some (code_entry G K E vls s) <-> is_Some (vls !! extracted_vid s).
Proof.
  unfold code_entry. destruct (vls !! extracted_vid s); split;
    intros [? ?]; eauto; discriminate.
Qed.

(** X4. The response of LookupVolume has exactly one entry for each input,
    repetitions included, whose volume id is a key of the lookup result:
    never more entries than inputs, none when no id is known, and never an
    error. *)
Theorem LookupVolume_response_size
    (GenJwtForVolumeServer : string -> Z -> string -> string)
    (lookupVolumeId : list string -> string -> gmap string operation.LookupResult)
    (SigningKey : string) (ExpiresAfterSec : Z)
    (req : master_pb.LookupVolumeRequest) :
  let vls := lookupVolumeId (master_pb.VolumeOrFileIds req)
               (master_pb.Collection req) in
  let run := LookupVolume GenJwtForVolumeServer lookupVolumeId SigningKey
               ExpiresAfterSec req in
  snd run = None
  /\ length (master_pb.VolumeIdLocations (fst run))
     = length (known_inputs vls (master_pb.VolumeOrFileIds req))
  /\ (length (master_pb.VolumeIdLocations (fst run))
      <= length (master_pb.VolumeOrFileIds req))%nat
  /\ ((forall s, In s (master_pb.VolumeOrFileIds req) ->
                 vls !! extracted_vid s = None) ->
      master_pb.VolumeIdLocations (fst run) = []).
Proof.
  intros vls run. unfold run. rewrite LookupVolume_omap. cbn [fst snd].
  fold vls. cbn [master_pb.VolumeIdLocations]. clearbody vls. clear run.
  generalize (master_pb.VolumeOrFileIds req). intros ids.
  assert (Hlen : length (omap (code_entry GenJwtForVolumeServer SigningKey
                                 ExpiresAfterSec vls) ids)
                 = length (known_inputs vls ids)).
  { rewrite omap_length_filter. unfold known_inputs. f_equal.
    apply List.filter_ext. intros s. apply bool_decide_ext.
    apply code_entry_is_Some. }
  split; [reflexivity|]. split; [exact Hlen|]. split.
  - rewrite Hlen. unfold known_inputs. apply List.filter_length_le.
  - clear Hlen. intros Hnone.
    induction ids as [|s l IH]; [reflexivity|].
    cbn. unfold code_entry at 1. rewrite (Hnone s (or_introl eq_refl)).
    apply IH. intros s' Hs'. apply Hnone. now right.
Qed.

Lemma LookupVolume_response_size_witness :
  master_pb.VolumeIdLocations
    (fst (LookupVolume Sample.GenJwt (fun _ _ => Sample.volumeLocations37)
            "key" 10
            {| master_pb.VolumeOrFileIds := ["999"; "12,ab"];
               master_pb.Collection := "" |})) = [].
Proof.
  apply (LookupVolume_response_size Sample.GenJwt
           (fun _ _ => Sample.volumeLocations37) "key" 10
           {| master_pb.VolumeOrFileIds := ["999"; "12,ab"];
              master_pb.Collection := "" |}).
  intros s [<-|[<-|[]]]; vm_compute; reflexivity.
Defined.

(** X5. Every location in a LookupVolume response is the conversion of a
    location of the lookup result, one for one and in order, and its port
    is a valid uint32: the result's port reduced modulo 2^32, unchanged
    when it already fits. *)
Theorem LookupVolume_locations_converted
    (GenJwtForVolumeServer : string -> Z -> string -> string)
    (SigningKey : string) (ExpiresAfterSec : Z)
    (vls : gmap string operation.LookupResult) (s : string)
    (e : master_pb.VolumeIdLocation) :
  code_entry GenJwtForVolumeServer SigningKey ExpiresAfterSec vls s = Some e ->
  exists r,
    vls !! extracted_vid s = Some r
    /\ master_pb.Locations e = map convert_location (operation.Locations r)
    /\ length (master_pb.Locations e) = length (operation.Locations r)
    /\ Forall (fun l => 0 <= master_pb.GrpcPort l < 2 ^ 32) (master_pb.Locations e)
    /\ (forall i loc, operation.Locations r !! i = Some loc ->
                      0 <= operation.GrpcPort loc < 2 ^ 32 ->
                      master_pb.GrpcPort <$> (master_pb.Locations e !! i)
                      = Some (operation.GrpcPort loc)).
Proof.
  unfold code_entry. destruct (vls !! extracted_vid s) as [r|]; [|discriminate].
  intros [= <-]. exists r. cbn [entry_of master_pb.Locations].
  rewrite convert_locations_map.
  split; [reflexivity|]. split; [reflexivity|]. split; [apply length_map|]. split.
  - apply Forall_forall. intros l Hl.
    apply list_elem_of_In, in_map_iff in Hl as (loc & <- & _).
    cbn. unfold GoInt.uint32. apply Z.mod_pos_bound. lia.
  - intros i loc Hi Hfit.
    change (map convert_location (operation.Locations r))
      with (convert_location <$> operation.Locations r).
    rewrite list_lookup_fmap, Hi. cbn. f_equal. now apply uint32_small.
Qed.

Lemma LookupVolume_locations_converted_witness :
  exists r,
    Sample.volumeLocations37 !! extracted_vid "7,abc" = Some r
    /\ master_pb.Locations (entry_of r "jwt:7")
       = map convert_location (operation.Locations r)
    /\ length (master_pb.Locations (entry_of r "jwt:7"))
       = length (operation.Locations r).
Proof.
  destruct (LookupVolume_locations_converted Sample.GenJwt "key" 10
              Sample.volumeLocations37 "7,abc"
              (entry_of {| operation.VolumeOrFileId := "7";
                           operation.Locations := [Sample.node1; Sample.node1];
                           operation.Error := "" |} "jwt:7")
              eq_refl) as (r & Hr & Hl & Hn & _).
  exists r. split; [exact Hr|].
  vm_compute in Hr. injection Hr as <-. split; reflexivity.
Defined.

(** ** VolumeGrow: what an error means, and what success does not mean *)

Lemma grow_attempts_DoAutomaticVolumeGrow grow (req : topology.VolumeGrowRequest) :
  grow_attempts (snd (DoAutomaticVolumeGrow grow req))
  = [(topology.Option req, topology.Count req)].
Proof.
  rewrite DoAutomaticVolumeGrow_effects. cbn [snd grow_attempts omap list_omap].
  f_equal. destruct (snd _); [reflexivity|].
  induction (fst _) as [|l ls IH]; [reflexivity | exact IH].
Qed.


(** X7. A failed growth is not reported: on the leader, with a request that
    parses and passes the capacity comparison, VolumeGrow returns an empty
    response and a nil error even when AutomaticGrowByType returns an
    error; nothing is broadcast then, whatever locations came with the
    error. *)
Theorem VolumeGrow_swallows_growth_error
    (NewReplicaPlacementFromString : string -> result super_block.ReplicaPlacement)
    (ReadTTL : string -> result needle.TTL)
    (ToDiskType : string -> types.DiskType)
    (ms : MasterServer) (req : AssignRequest)
    (rp : super_block.ReplicaPlacement) (ttl : needle.TTL)
    (created : list VolumeLocation) (e : error) :
  IsLeader (Topo ms) = true ->
  NewReplicaPlacementFromString (effective_replication ms (arReplication req))
    = Ok rp ->
  ReadTTL (arTtl req) = Ok ttl ->
  replicaCount_of req rp
    <= AvailableSpaceFor (Topo ms) (volumeGrowOption_of ToDiskType ms req rp ttl) ->
  AutomaticGrowByType ms (volumeGrowOption_of ToDiskType ms req rp ttl)
    (arWritableVolumeCount req) = (created, Some e) ->
  let run := VolumeGrow NewReplicaPlacementFromString ReadTTL ToDiskType ms req in
  fst run = (Some EmptyVolumeGrowResponse, None) /\ broadcasts (snd run) = [].
Proof.
  intros Hl Hrp Httl Hcap Hgrow run. unfold run.
  rewrite (VolumeGrow_past_preflight _ _ _ ms req rp ttl Hl Hrp Httl Hcap).
  cbn [fst snd]. split; [reflexivity|].
  rewrite DoAutomaticVolumeGrow_effects.
  cbn [snd topology.Option topology.Count]. rewrite Hgrow. reflexivity.
Qed.

Lemma VolumeGrow_swallows_growth_error_witness :
  let run := VolumeGrow Sample.NewReplicaPlacementFromString Sample.ReadTTL
               Sample.ToDiskType Scenario.ms_failing_grower Scenario.grow_two in
  fst run = (Some EmptyVolumeGrowResponse, None) /\ broadcasts (snd run) = [].
Proof.
  apply (VolumeGrow_swallows_growth_error
           Sample.NewReplicaPlacementFromString Sample.ReadTTL
           Sample.ToDiskType Scenario.ms_failing_grower Scenario.grow_two
           Scenario.rp001 Scenario.no_ttl [Sample.newVolume]
           (GrowError "no free volume slot") eq_refl eq_refl eq_refl).
  - vm_compute. discriminate.
  - reflexivity.
Defined.

(** X8. The capacity preflight when the product fits 32 bits: on the
    leader, with a request that parses, if WritableVolumeCount x copy count
    is below 2^32 and exceeds AvailableSpaceFor, VolumeGrow fails with
    "only N volumes left, not enough for M" carrying both numbers, and no
    grow attempt or broadcast is made; the pinned data center is not looked
    at. *)
Theorem VolumeGrow_insufficient_capacity
    (NewReplicaPlacementFromString : string -> result super_block.ReplicaPlacement)
    (ReadTTL : string -> result needle.TTL)
    (ToDiskType : string -> types.DiskType)
    (ms : MasterServer) (req : AssignRequest)
    (rp : super_block.ReplicaPlacement) (ttl : needle.TTL) :
  IsLeader (Topo ms) = true ->
  NewReplicaPlacementFromString (effective_replication ms (arReplication req))
    = Ok rp ->
  ReadTTL (arTtl req) = Ok ttl ->
  0 <= arWritableVolumeCount req ->
  0 <= super_block.GetCopyCount rp ->
  arWritableVolumeCount req * super_block.GetCopyCount rp < 2 ^ 32 ->
  AvailableSpaceFor (Topo ms) (volumeGrowOption_of ToDiskType ms req rp ttl)
    < arWritableVolumeCount req * super_block.GetCopyCount rp ->
  let run := VolumeGrow NewReplicaPlacementFromString ReadTTL ToDiskType ms req in
  fst run
  = (None,
     Some (ErrOnlyVolumesLeft
             (AvailableSpaceFor (Topo ms)
                (volumeGrowOption_of ToDiskType ms req rp ttl))
             (arWritableVolumeCount req * super_block.GetCopyCount rp)))
  /\ grow_attempts (snd run) = []
  /\ broadcasts (snd run) = [].
Proof.
  intros Hl Hrp Httl Hw Hc Hfit Hlt run. unfold run.
  rewrite (VolumeGrow_capacity_preflight _ _ _ ms req rp ttl
             Hl Hrp Httl Hw Hc Hfit Hlt).
  repeat split.
Qed.

Lemma VolumeGrow_insufficient_capacity_witness :
  let run := VolumeGrow Sample.NewReplicaPlacementFromString Sample.ReadTTL
               Sample.ToDiskType Sample.ms Scenario.grow_six in
  fst run = (None, Some (ErrOnlyVolumesLeft 10 12))
  /\ grow_attempts (snd run) = []
  /\ broadcasts (snd run) = [].
Proof.
  apply (VolumeGrow_insufficient_capacity
           Sample.NewReplicaPlacementFromString Sample.ReadTTL
           Sample.ToDiskType Sample.ms Scenario.grow_six
           Scenario.rp001 Scenario.no_ttl eq_refl eq_refl eq_refl);
    vm_compute; first [reflexivity | discriminate].
Defined.

(** X9. Leaving Replication empty is the same as asking for the configured
    default: VolumeGrow and Statistics give the same answer, and VolumeGrow
    has the same effects, for a request with an empty Replication and for
    the same request with Replication set to DefaultReplicaPlacement. *)
Theorem empty_replication_is_default
    (NewReplicaPlacementFromString : string -> result super_block.ReplicaPlacement)
    (ReadTTL : string -> result needle.TTL)
    (ToDiskType : string -> types.DiskType)
    (ms : MasterServer) (greq : AssignRequest) (sreq : StatisticsRequest) :
  VolumeGrow NewReplicaPlacementFromString ReadTTL ToDiskType ms
    (with_replication greq "")
  = VolumeGrow NewReplicaPlacementFromString ReadTTL ToDiskType ms
      (with_replication greq (DefaultReplicaPlacement (option_ ms)))
  /\ Statistics NewReplicaPlacementFromString ReadTTL ToDiskType ms
       (stats_with_replication sreq "")
     = Statistics NewReplicaPlacementFromString ReadTTL ToDiskType ms
         (stats_with_replication sreq (DefaultReplicaPlacement (option_ ms))).
Proof.
  unfold VolumeGrow, Statistics, with_replication, stats_with_replication.
  cbn [arReplication srReplication arCollection arTtl arDiskType arDataCenter
       arRack arDataNode arMemoryMapMaxSizeMb arWritableVolumeCount
       srCollection srTtl srDiskType].
  change (String.eqb "" "") with true. cbv iota.
  destruct (String.eqb (DefaultReplicaPlacement (option_ ms)) "") eqn:Hd;
    split; reflexivity.
Qed.

(** ** Further properties of the growth pipeline *)

Module PipelineFlow.
Import Pipeline PipelineProofs Accounting.

#[local] Set Warnings "-clear-no-such-hyp".

Lemma not_grown_app ts1 ts2 : not_grown (ts1 ++ ts2) = not_grown ts1 ++ not_grown ts2.
Proof. unfold not_grown. apply flat_map_app. Qed.

Lemma not_grown_cons t ts :
  not_grown (t :: ts)
  = match snd t with TaskGrow => [fst t] | _ => [] end ++ not_grown ts.
Proof. reflexivity. Qed.

(** *** Every AddGrowRequest is answered by one DoneGrowRequest *)

Lemma balanced_step cap a s s' vl :
  step cap a s = Some s' -> balanced vl s -> balanced vl s'.
Proof.
  unfold balanced. intros Hstep K.
  destruct a; step_cases Hstep; try assumption.
  all: unfold pending in *; project; use_pcs; try split_tasks.
  all: try (grow_events (is_add vl); grow_events (is_done_on vl)).
  all: count_norm; cbn [is_add is_done_on] in *; try assumption; try lia.
  all: unfold on_layout in *; cbn [deref] in *;
    rewrite ?layout_of_ToGrowOption, ?layout_of_set_DataCenter in *.
  all: repeat case_bool_decide; subst; try lia; try congruence.
Qed.

(** *** A growth touches neither the channel nor the filter *)

Lemma omap_grow_events {A} (f : Event -> option A) grow req :
  (forall o c, f (EvAutomaticGrowByType o c) = None) ->
  (forall resp, f (EvBroadcast resp) = None) ->
  omap f (snd (DoAutomaticVolumeGrow grow req)) = [].
Proof.
  intros Hg Hb. rewrite DoAutomaticVolumeGrow_effects. cbn [snd omap list_omap].
  rewrite Hg. destruct (snd _); [reflexivity|].
  induction (fst _) as [|l ls IH]; [reflexivity|].
  cbn [map omap list_omap]. now rewrite Hb.
Qed.

Ltac grow_omap f :=
  match goal with
  | H : DoAutomaticVolumeGrow ?g ?r = (_, ?l) |- _ =>
      let C := fresh "C" in
      assert (C : omap f l = [])
        by (pose proof (omap_grow_events f g r) as C; rewrite H in C;
            apply C; reflexivity)
  end.

(** *** The filter holds the launched goroutines' requests and nothing else *)

Lemma filter_owned_step cap a s s' :
  step cap a s = Some s' -> filter_owned s -> filter_owned s'.
Proof.
  unfold filter_owned. intros Hstep K.
  destruct a; step_cases Hstep; project; try assumption.
  all: intros a0 req Hl.
  - rewrite lookup_insert in Hl. case_decide; simplify_eq.
    + exists TaskGrow. rewrite elem_of_app. right.
      apply list_elem_of_singleton. now destruct r.
    + destruct (K _ _ Hl) as [pc Hin]. exists pc. rewrite elem_of_app. now left.
  - destruct (K _ _ Hl) as [pc Hin]. split_tasks.
    rewrite elem_of_app, elem_of_cons in Hin.
    destruct Hin as [Hin|[Hin|Hin]].
    + exists pc. rewrite elem_of_app. now left.
    + injection Hin as <- ->. exists TaskDone.
      rewrite elem_of_app, elem_of_cons. right. now left.
    + exists pc. rewrite elem_of_app, elem_of_cons. right. now right.
  - destruct (K _ _ Hl) as [pc Hin]. split_tasks.
    rewrite elem_of_app, elem_of_cons in Hin.
    destruct Hin as [Hin|[Hin|Hin]].
    + exists pc. rewrite elem_of_app. now left.
    + injection Hin as <- ->. exists TaskDelete.
      rewrite elem_of_app, elem_of_cons. right. now left.
    + exists pc. rewrite elem_of_app, elem_of_cons. right. now right.
  - apply lookup_delete_Some in Hl as [Hne Hl].
    destruct (K _ _ Hl) as [pc Hin]. split_tasks.
    rewrite elem_of_app, elem_of_cons in Hin.
    destruct Hin as [Hin|[Hin|Hin]].
    + exists pc. rewrite elem_of_app. now left.
    + injection Hin as <- ->. now cbn in Hne.
    + exists pc. rewrite elem_of_app. now right.
Qed.

(** *** Each accepted request is grown once and removed once *)

Lemma lifecycle_step cap a s s' :
  step cap a s = Some s' -> lifecycle s -> lifecycle s'.
Proof.
  unfold lifecycle, stored, removed. intros Hstep [K L].
  destruct a; step_cases Hstep; try (split; assumption).
  all: project; try split_tasks.
  all: try (grow_omap (fun e => match e with EvFilterStore r => Some r | _ => None end);
            grow_omap (fun e => match e with EvFilterDelete r => Some r | _ => None end)).
  all: try match goal with
         | H : DoAutomaticVolumeGrow ?g ?r = (_, ?l) |- _ =>
             pose proof (grow_attempts_DoAutomaticVolumeGrow g r) as G;
             rewrite H in G; cbn [snd] in G
         end.
  all: unfold grow_attempts in *.
  all: rewrite ?omap_app, ?map_app, ?not_grown_app, ?not_grown_cons in *;
    cbn [omap list_omap map fst snd app] in *;
    repeat match goal with H : omap _ _ = [] |- _ => rewrite H; clear H end;
    rewrite ?app_nil_r, ?map_app in *; cbn [map app] in *.
  all: try (split; assumption).
  all: try rewrite G.
  all: split; [rewrite K | rewrite L]; cbn [not_grown flat_map app];
    rewrite ?app_nil_r; solve_Permutation.
Qed.


(** *** A follower does not grow volumes *)

Lemma follower_step cap a s s' :
  a <> ActLeader true -> step cap a s = Some s' -> follower_idle s ->
  follower_idle s' /\ filter s' = filter s
  /\ grow_attempts (trace s') = grow_attempts (trace s)
  /\ broadcasts (trace s') = broadcasts (trace s).
Proof.
  unfold follower_idle, grow_attempts, broadcasts.
  intros Ha Hstep (Hl & Ht & Hd).
  destruct a; step_cases Hstep; project;
    rewrite ?omap_app; cbn [omap list_omap]; rewrite ?app_nil_r;
    try (repeat split; first [assumption | discriminate | reflexivity]).
  all: try (destruct b; [contradiction | repeat split; assumption]).
  all: try congruence.
  all: try (match goal with H : negb (leader _) = false |- _ =>
              rewrite Hl in H; discriminate H end).
  all: try (match goal with H : dispatcher _ = DispAccept ?r |- _ =>
              destruct (Hd r H) end).
  all: match goal with H : tasks _ !! _ = Some _ |- _ =>
         rewrite Ht in H; discriminate H end.
Qed.

(** *** The pipeline can always drain *)

Lemma settle_dispatcher cap s :
  exists acts s',
    run cap acts s = Some s' /\ dispatcher s' = DispRecv
    /\ chan s' = chan s /\ scanner s' = scanner s.
Proof.
  destruct (dispatcher s) eqn:Hd.
  - exists [], s. repeat split. exact Hd.
  - exists [ActDispatch true]. eexists. cbn. unfold dispatch_step.
    rewrite Hd. split; [reflexivity|]. repeat split.
  - exists [ActDispatch true]. eexists. cbn. unfold dispatch_step.
    rewrite Hd. split; [reflexivity|]. repeat split.
Qed.

Lemma drain_channel cap n s :
  length (chan s) = n ->
  exists acts s',
    run cap acts s = Some s' /\ dispatcher s' = DispRecv
    /\ chan s' = [] /\ scanner s' = scanner s.
Proof.
  revert s. induction n as [|n IH]; intros s Hn.
  - destruct (settle_dispatcher cap s) as (acts & s' & Hrun & Hd & Hc & Hs).
    exists acts, s'. repeat split; try assumption.
    rewrite Hc. now apply nil_length_inv.
  - destruct (settle_dispatcher cap s) as (acts1 & s1 & Hrun1 & Hd1 & Hc1 & Hs1).
    destruct (chan s1) as [|r rest] eqn:Hch.
    { rewrite <- Hc1 in Hn. discriminate Hn. }
    assert (exists s2, step cap (ActDispatch true) s1 = Some s2
                       /\ chan s2 = rest /\ scanner s2 = scanner s1)
      as (s2 & Hstep & Hc2 & Hs2).
    { cbn. unfold dispatch_step. rewrite Hd1, Hch.
      repeat case_match; eexists; (split; [reflexivity|]); split; reflexivity. }
    destruct (IH s2) as (acts3 & s3 & Hrun3 & Hd3 & Hc3 & Hs3).
    { rewrite Hc2. rewrite <- Hc1 in Hn. cbn in Hn. lia. }
    exists (acts1 ++ ActDispatch true :: acts3), s3. repeat split; try assumption.
    + eapply run_app; [exact Hrun1|]. cbn [run]. now rewrite Hstep.
    + congruence.
Qed.

Lemma flush_scanner cap pc s :
  scanner s = pc ->
  exists acts s',
    run cap acts s = Some s' /\ dispatcher s' = DispRecv
    /\ chan s' = [] /\ scan_held (scanner s') = [].
Proof.
  revert s. induction pc as [| | |r k IH]; intros s Hs.
  1-3: destruct (drain_channel cap _ s eq_refl) as (acts & s' & Hrun & Hd & Hc & Hs');
    exists acts, s'; repeat split; try assumption; rewrite Hs', Hs; reflexivity.
  destruct (drain_channel cap _ s eq_refl) as (acts1 & s1 & Hrun1 & Hd1 & Hc1 & Hs1).
  set (s2 := log (with_scanner (with_chan s1 (chan s1 ++ [r])) k) [EvSend r]).
  assert (Hstep : step cap (ActScan nothing_to_grow) s1 = Some s2).
  { cbn. unfold scan_step. rewrite Hs1, Hs.
    assert (can_send cap s1 = true) as ->; [|reflexivity].
    unfold can_send. rewrite Hd1, Hc1. now destruct cap. }
  destruct (IH s2 eq_refl) as (acts3 & s3 & Hrun3 & Hd3 & Hc3 & Hs3).
  exists (acts1 ++ ActScan nothing_to_grow :: acts3), s3.
  repeat split; try assumption.
  eapply run_app; [exact Hrun1|]. cbn [run]. now rewrite Hstep.
Qed.

Lemma finish_first_task cap s r pc ts :
  tasks s = (r, pc) :: ts ->
  exists acts s',
    run cap acts s = Some s' /\ tasks s' = ts
    /\ dispatcher s' = dispatcher s /\ chan s' = chan s
    /\ scanner s' = scanner s.
Proof.
  assert (Hdel : forall s, tasks s = (r, TaskDelete) :: ts ->
            exists acts s',
              run cap acts s = Some s' /\ tasks s' = ts
              /\ dispatcher s' = dispatcher s /\ chan s' = chan s
              /\ scanner s' = scanner s).
  { intros s0 Ht. exists [ActTask 0 ([], None)]. eexists. cbn.
    unfold task_step. rewrite Ht. cbn. split; [reflexivity|].
    repeat split. }
  assert (Hdone : forall s, tasks s = (r, TaskDone) :: ts ->
            exists acts s',
              run cap acts s = Some s' /\ tasks s' = ts
              /\ dispatcher s' = dispatcher s /\ chan s' = chan s
              /\ scanner s' = scanner s).
  { intros s0 Ht.
    set (s1 := log (with_tasks (DoneGrowRequest s0 (layout_of (deref r)))
                      ((r, TaskDelete) :: ts))
                 [EvDoneGrowRequest (layout_of (deref r)) r]).
    assert (Hstep : step cap (ActTask 0 ([], None)) s0 = Some s1).
    { cbn. unfold task_step. rewrite Ht. reflexivity. }
    destruct (Hdel s1 eq_refl) as (acts & s' & Hrun & H1 & H2 & H3 & H4).
    exists (ActTask 0 ([], None) :: acts), s'. cbn [run]. rewrite Hstep.
    repeat split; assumption. }
  intros Ht. destruct pc; [|now apply Hdone|now apply Hdel].
  set (s1 := log (with_tasks s ((r, TaskDone) :: ts))
               (snd (DoAutomaticVolumeGrow (fun _ _ => ([], None)) (deref r)))).
  assert (Hstep : step cap (ActTask 0 ([], None)) s = Some s1).
  { cbn. unfold task_step. rewrite Ht. reflexivity. }
  destruct (Hdone s1 eq_refl) as (acts & s' & Hrun & H1 & H2 & H3 & H4).
  exists (ActTask 0 ([], None) :: acts), s'. cbn [run]. rewrite Hstep.
  repeat split; assumption.
Qed.

Lemma finish_tasks cap n s :
  length (tasks s) = n ->
  exists acts s',
    run cap acts s = Some s' /\ tasks s' = []
    /\ dispatcher s' = dispatcher s /\ chan s' = chan s
    /\ scanner s' = scanner s.
Proof.
  revert s. induction n as [|n IH]; intros s Hn.
  - exists [], s. repeat split. now apply nil_length_inv.
  - destruct (tasks s) as [|[r pc] ts] eqn:Ht; [discriminate Hn|].
    destruct (finish_first_task cap s r pc ts Ht)
      as (acts1 & s1 & Hrun1 & Ht1 & Hd1 & Hc1 & Hs1).
    destruct (IH s1) as (acts2 & s2 & Hrun2 & Ht2 & Hd2 & Hc2 & Hs2).
    { rewrite Ht1. cbn in Hn. lia. }
    exists (acts1 ++ acts2), s2. repeat split; try congruence.
    eapply run_app; eauto.
Qed.

Lemma run_preserves (P : State -> Prop) cap :
  (forall a s s', step cap a s = Some s' -> P s -> P s') ->
  forall acts s s', run cap acts s = Some s' -> P s -> P s'.
Proof.
  intros Hstep acts. induction acts as [|a acts IH]; intros s s' Hrun Hinv;
    cbn in Hrun.
  - now injection Hrun as <-.
  - destruct (step cap a s) as [s1|] eqn:Hs; [|discriminate].
    eapply IH; [exact Hrun|]. eapply Hstep; eauto.
Qed.


(** *** What holds of every reachable state *)

(** X10. AddGrowRequest and DoneGrowRequest balance on every layout: in
    every reachable state, the number of AddGrowRequest calls made on a
    layout equals the number of DoneGrowRequest calls made on it plus the
    number of requests for it that are still pending (with the scanner, in
    the channel, with the dispatcher, or growing). *)
Theorem AddGrowRequest_balanced cap acts s vl :
  run cap acts init = Some s ->
  count (is_add vl) (trace s)
  = (count (is_done_on vl) (trace s) + length (pending_for vl s))%nat.
Proof.
  intros Hrun.
  apply (run_preserves (balanced vl) cap
           (fun a s s' => balanced_step cap a s s' vl) _ _ _ Hrun).
  reflexivity.
Qed.

Lemma AddGrowRequest_balanced_witness :
  run 2 Sample.one_scan init = Some Sample.after_one_scan
  /\ count (is_add Sample.layout) (trace Sample.after_one_scan) = 2%nat
  /\ length (pending_for Sample.layout Sample.after_one_scan) = 2%nat.
Proof.
  assert (Hrun : run 2 Sample.one_scan init = Some Sample.after_one_scan)
    by (vm_compute; reflexivity).
  pose proof (AddGrowRequest_balanced 2 Sample.one_scan Sample.after_one_scan
                Sample.layout Hrun) as Hb.
  split; [exact Hrun|].
  assert (Hd : count (is_done_on Sample.layout) (trace Sample.after_one_scan)
               = 0%nat) by (vm_compute; reflexivity).
  assert (Hp : length (pending_for Sample.layout Sample.after_one_scan) = 2%nat)
    by (vm_compute; reflexivity).
  rewrite Hd, Hp in Hb. split; [exact Hb | exact Hp].
Defined.

(** X12. The in-flight filter holds exactly the requests of the launched
    goroutines: in every reachable state an address maps to a request in
    the filter if and only if a launched goroutine that has not finished
    holds that request object; so once every goroutine has finished the
    filter is empty. *)
Theorem filter_holds_launched_requests cap acts s :
  run cap acts init = Some s ->
  (forall a req,
      filter s !! a = Some req
      <-> exists pc, ({| addr := a; deref := req |}, pc) ∈ tasks s)
  /\ (tasks s = [] -> filter s = ∅).
Proof.
  intros Hrun.
  assert (Hown : filter_owned s).
  { apply (run_preserves filter_owned cap (filter_owned_step cap) _ _ _ Hrun).
    intros a req Hl. cbn in Hl. now rewrite lookup_empty in Hl. }
  destruct (run_invariant _ _ _ _ Hrun invariant_init)
    as (_ & _ & _ & (_ & _ & J3) & _).
  split.
  - intros a req. split; [apply Hown|].
    intros [pc Hin]. exact (J3 _ Hin).
  - intros Ht. apply map_empty. intros a.
    destruct (filter s !! a) as [req|] eqn:E; [|reflexivity].
    destruct (Hown _ _ E) as [pc Hin]. rewrite Ht in Hin.
    now apply elem_of_nil in Hin.
Qed.

Lemma filter_holds_launched_requests_witness :
  run 1 Sample.republished_while_in_filter init = Some Sample.after_republish
  /\ filter Sample.after_republish !! 0%nat
     = Some (deref (Sample.collection_request 0)).
Proof.
  assert (Hrun : run 1 Sample.republished_while_in_filter init
                 = Some Sample.after_republish) by (vm_compute; reflexivity).
  split; [exact Hrun|].
  apply (proj1 (filter_holds_launched_requests 1
                  Sample.republished_while_in_filter
                  Sample.after_republish Hrun)).
  exists TaskDelete. apply list_elem_of_In. vm_compute. left. reflexivity.
Defined.

(** X13. Every accepted request is grown once and removed once: in every
    reachable state the requests stored in the filter so far are, up to
    order, those deleted from it together with those of the goroutines
    still alive; and the (Option, Count) pairs of the stored requests are,
    up to order, the arguments of the AutomaticGrowByType calls made so
    far together with those of the goroutines that have not made their
    call yet. *)
Theorem accepted_requests_grown_once cap acts s :
  run cap acts init = Some s ->
  stored (trace s) ≡ₚ removed (trace s) ++ map fst (tasks s)
  /\ map (fun r => (topology.Option (deref r), topology.Count (deref r)))
       (stored (trace s))
     ≡ₚ grow_attempts (trace s)
        ++ map (fun r => (topology.Option (deref r), topology.Count (deref r)))
             (not_grown (tasks s)).
Proof.
  intros Hrun.
  apply (run_preserves lifecycle cap (lifecycle_step cap) _ _ _ Hrun).
  split; reflexivity.
Qed.

Lemma accepted_requests_grown_once_witness :
  run 1 Sample.one_request_accepted init = Some Schedules.after_accepted
  /\ grow_attempts (trace Schedules.after_accepted)
     ≡ₚ [(topology.Option (deref Sample.request0), 1)]
  /\ removed (trace Schedules.after_accepted) ≡ₚ [Sample.request0].
Proof.
  assert (Hrun : run 1 Sample.one_request_accepted init
                 = Some Schedules.after_accepted) by (vm_compute; reflexivity).
  destruct (accepted_requests_grown_once 1 Sample.one_request_accepted
              Schedules.after_accepted Hrun) as [H1 H2].
  assert (Hs : stored (trace Schedules.after_accepted) = [Sample.request0])
    by (vm_compute; reflexivity).
  assert (Ht : tasks Schedules.after_accepted = [])
    by (vm_compute; reflexivity).
  rewrite Hs in H1, H2. rewrite Ht in H1, H2.
  cbn [map not_grown flat_map] in H1, H2. rewrite app_nil_r in H1, H2.
  split; [exact Hrun|]. split; [symmetry; exact H2 | symmetry; exact H1].
Defined.

(** X14. A follower does not grow volumes: from a state in which the
    server is not leader, no growth goroutine is alive and the dispatcher
    is not about to launch one, every schedule that does not make the
    server leader leaves the filter as it was, launches no goroutine,
    calls AutomaticGrowByType not once and broadcasts nothing, whatever
    the scanner still publishes. *)
Theorem follower_never_grows cap acts s s' :
  follower_idle s -> stays_follower acts ->
  run cap acts s = Some s' ->
  follower_idle s' /\ filter s' = filter s
  /\ grow_attempts (trace s') = grow_attempts (trace s)
  /\ broadcasts (trace s') = broadcasts (trace s).
Proof.
  intros Hidle Hacts. revert s Hidle.
  induction Hacts as [|a acts Ha Hacts IH]; intros s Hidle Hrun; cbn in Hrun.
  - injection Hrun as <-. repeat split; apply Hidle.
  - destruct (step cap a s) as [s1|] eqn:Hstep; [|discriminate].
    destruct (follower_step _ _ _ _ Ha Hstep Hidle) as (I1 & F1 & G1 & B1).
    destruct (IH s1 I1 Hrun) as (I2 & F2 & G2 & B2).
    repeat split; try apply I2; congruence.
Qed.

Lemma follower_never_grows_witness :
  run 1 Schedules.as_follower Schedules.demoted = Some Schedules.after_discards
  /\ length (delivered (trace Schedules.after_discards)) = 2%nat
  /\ tasks Schedules.after_discards = []
  /\ grow_attempts (trace Schedules.after_discards) = []
  /\ broadcasts (trace Schedules.after_discards) = [].
Proof.
  assert (Hrun : run 1 Schedules.as_follower Schedules.demoted
                 = Some Schedules.after_discards) by (vm_compute; reflexivity).
  assert (Hidle : follower_idle Schedules.demoted).
  { split; [reflexivity|]. split; [reflexivity|]. intros r. discriminate. }
  assert (Hacts : stays_follower Schedules.as_follower).
  { repeat constructor; discriminate. }
  destruct (follower_never_grows 1 Schedules.as_follower Schedules.demoted
              Schedules.after_discards Hidle Hacts Hrun)
    as ((_ & Ht & _) & _ & Hg & Hb).
  split; [exact Hrun|]. split; [vm_compute; reflexivity|].
  split; [exact Ht|]. split; [rewrite Hg | rewrite Hb]; vm_compute; reflexivity.
Defined.

(** X16. The pipeline can always drain: from every reachable state, at any
    channel capacity, some continuation of the schedule leads to a state
    in which no request is pending, no goroutine is alive, the filter is
    empty and the guard of every layout is clear; no request is stuck and
    no guard stays set for ever. *)
Theorem pipeline_can_quiesce cap acts s :
  run cap acts init = Some s ->
  exists acts' s', run cap acts' s = Some s' /\ quiescent s'.
Proof.
  intros Hrun.
  destruct (flush_scanner cap _ s eq_refl) as (acts1 & s1 & Hrun1 & Hd1 & Hc1 & Hs1).
  destruct (finish_tasks cap _ s1 eq_refl) as (acts2 & s2 & Hrun2 & Ht2 & Hd2 & Hc2 & Hs2).
  exists (acts1 ++ acts2), s2.
  assert (Hrun12 : run cap (acts1 ++ acts2) s = Some s2)
    by (eapply run_app; eauto).
  assert (Hreach : run cap (acts ++ acts1 ++ acts2) init = Some s2)
    by (eapply run_app; eauto).
  assert (Hp : pending s2 = []).
  { unfold pending. rewrite Hs2, Hs1, Hc2, Hc1, Hd2, Hd1, Ht2. reflexivity. }
  split; [exact Hrun12|]. split; [exact Hp|]. split; [exact Ht2|]. split.
  - assert (Hown : filter_owned s2).
    { apply (run_preserves filter_owned cap (filter_owned_step cap) _ _ _ Hreach).
      intros a req Hl. cbn in Hl. now rewrite lookup_empty in Hl. }
    apply map_empty. intros a.
    destruct (filter s2 !! a) as [req|] eqn:E; [|reflexivity].
    destruct (Hown _ _ E) as [pc Hin]. rewrite Ht2 in Hin.
    now apply elem_of_nil in Hin.
  - intros vl. destruct (guard s2 vl) eqn:Hg; [|reflexivity].
    destruct (run_invariant _ _ _ _ Hreach invariant_init)
      as (_ & _ & G & _).
    destruct (G vl Hg) as (r & Hin & _). rewrite Hp in Hin.
    now apply elem_of_nil in Hin.
Qed.

Lemma pipeline_can_quiesce_witness :
  run 1 Sample.one_request_received init = Some Sample.after_receive
  /\ exists acts' s',
       run 1 acts' Sample.after_receive = Some s' /\ quiescent s'.
Proof.
  assert (Hrun : run 1 Sample.one_request_received init
                 = Some Sample.after_receive) by (vm_compute; reflexivity).
  split; [exact Hrun|].
  exact (pipeline_can_quiesce 1 Sample.one_request_received
           Sample.after_receive Hrun).
Defined.

(** *** The scanner publishes one request for each guard it sets *)

Lemma published_step cap a s s' :
  step cap a s = Some s' -> published s -> published s'.
Proof.
  unfold published, sent. intros Hstep [K L].
  destruct a; step_cases Hstep; try (split; assumption).
  all: project; use_pcs.
  all: try (grow_events is_any_add;
            grow_omap (fun e => match e with EvSend r => Some r | _ => None end)).
  all: rewrite ?omap_app, ?count_app, ?count_cons, ?count_nil,
         ?length_app in *;
    cbn [omap list_omap scan_held one_send_at_a_time is_any_add length] in *;
    repeat match goal with H : omap _ _ = [] |- _ => rewrite H; clear H end;
    cbn [length] in *.
  all: try (split; [lia | first [exact I | reflexivity | assumption]]).
  all: split; [rewrite L in *; cbn [length] in *; lia|].
  all: match goal with
       | H : scan_held ?k = [] |- one_send_at_a_time ?k =>
           destruct k; [exact I .. | discriminate H]
       end.
Qed.

(** X17. The scanner publishes one request per AddGrowRequest call, one at
    a time: in every reachable state the number of AddGrowRequest calls
    equals the number of requests sent on the channel plus the number the
    scanner still holds for sending, and it holds at most one; so no guard
    is set without a request being published for it, and the scanner sets
    no further guard while a send is blocked. *)
Theorem one_request_per_AddGrowRequest cap acts s :
  run cap acts init = Some s ->
  count is_any_add (trace s)
  = (length (sent (trace s)) + length (scan_held (scanner s)))%nat
  /\ (length (scan_held (scanner s)) <= 1)%nat.
Proof.
  intros Hrun.
  assert (Hp : published s).
  { apply (run_preserves published cap (published_step cap) _ _ _ Hrun).
    split; [reflexivity | exact I]. }
  destruct Hp as [K L]. split; [exact K|].
  destruct (scanner s); cbn in *; try lia. rewrite L. cbn. lia.
Qed.

Lemma one_request_per_AddGrowRequest_witness :
  run 1 Sample.one_scan_with_receive init
  = Some (Sample.run_from_init 1 Sample.one_scan_with_receive)
  /\ count is_any_add
       (trace (Sample.run_from_init 1 Sample.one_scan_with_receive)) = 2%nat
  /\ length (scan_held (scanner
       (Sample.run_from_init 1 Sample.one_scan_with_receive))) = 1%nat.
Proof.
  assert (Hrun : run 1 Sample.one_scan_with_receive init
                 = Some (Sample.run_from_init 1 Sample.one_scan_with_receive))
    by (vm_compute; reflexivity).
  destruct (one_request_per_AddGrowRequest 1 Sample.one_scan_with_receive _ Hrun)
    as [K L].
  assert (Hs : length (sent (trace (Sample.run_from_init 1
                                      Sample.one_scan_with_receive))) = 1%nat)
    by (vm_compute; reflexivity).
  assert (Hh : length (scan_held (scanner (Sample.run_from_init 1
                                      Sample.one_scan_with_receive))) = 1%nat)
    by (vm_compute; reflexivity).
  rewrite Hs, Hh in K. split; [exact Hrun|]. split; [exact K | exact Hh].
Defined.

End PipelineFlow.

(** ** VolumeMarkReadonly and LookupEcVolume *)

Module ReplicaProofs.
Import replicas.

Lemma mark_each_filter vl req dataNodes :
  mark_each vl req dataNodes
  = map (fun dn => if mrIsReadonly req
                   then EvSetVolumeReadOnly vl dn (mrVolumeId req)
                   else EvSetVolumeWritable vl dn (mrVolumeId req))
      (List.filter (addressed req) dataNodes).
Proof.
  induction dataNodes as [|dn rest IH]; [reflexivity|].
  cbn [mark_each List.filter]. unfold mark at 1, addressed at 1.
  destruct (String.eqb (Ip dn) (mrIp req) && (Port dn =? mrPort req));
    cbn [map app]; rewrite IH; [destruct (mrIsReadonly req)|]; reflexivity.
Qed.

Lemma shard_locations_map acc shardLocations :
  shard_locations acc shardLocations = acc ++ map ec_location shardLocations.
Proof.
  revert acc. induction shardLocations as [|dn rest IH]; intros acc; cbn.
  - now rewrite app_nil_r.
  - rewrite IH, <- app_assoc. reflexivity.
Qed.

Lemma shard_entries_map acc ecLocations :
  shard_entries acc ecLocations
  = acc ++ map (fun p => {| ShardId := GoInt.uint32 (fst p);
                            ShardLocations := map ec_location (snd p) |})
             ecLocations.
Proof.
  revert acc. induction ecLocations as [|[shardId nodes] rest IH]; intros acc; cbn.
  - now rewrite app_nil_r.
  - rewrite IH, <- app_assoc, shard_locations_map. reflexivity.
Qed.

(** X18. VolumeMarkReadonly touches exactly the addressed replicas: on the
    leader it always returns an empty response and no error; it makes one
    call for each node of the volume whose Ip and Port are the request's,
    in lookup order, all on the volume of the request, all on one layout,
    and all SetVolumeReadOnly or all SetVolumeWritable as IsReadonly says;
    when no node matches (unknown volume, wrong address) nothing is
    changed and the call still succeeds. *)
Theorem VolumeMarkReadonly_marks_addressed_replicas
    (NewReplicaPlacementFromByte : Z -> super_block.ReplicaPlacement * option error)
    (LoadTTLFromUint32 : Z -> needle.TTL)
    (ToDiskType : string -> types.DiskType)
    (Lookup : string -> Z -> list DataNode)
    (ms : MasterServer) (req : VolumeMarkReadonlyRequest) :
  IsLeader (Topo ms) = true ->
  let run := VolumeMarkReadonly NewReplicaPlacementFromByte LoadTTLFromUint32
               ToDiskType Lookup ms req in
  let dataNodes := Lookup (mrCollection req) (mrVolumeId req) in
  fst run = (Some EmptyVolumeMarkReadonlyResponse, None)
  /\ map node_of (snd run) = List.filter (addressed req) dataNodes
  /\ Forall (fun e => vid_of e = mrVolumeId req
                      /\ sets_readonly e = mrIsReadonly req
                      /\ layout_of_event e
                         = topology.GetVolumeLayout (mrCollection req)
                             (fst (NewReplicaPlacementFromByte
                                     (byte (mrReplicaPlacement req))))
                             (LoadTTLFromUint32 (mrTtl req))
                             (ToDiskType (mrDiskType req)))
       (snd run)
  /\ (List.filter (addressed req) dataNodes = [] -> snd run = []).
Proof.
  intros Hl. cbv zeta. unfold VolumeMarkReadonly. rewrite Hl. cbn [negb].
  destruct (NewReplicaPlacementFromByte _) as [rp err]. cbn [fst snd].
  rewrite mark_each_filter.
  generalize (Lookup (mrCollection req) (mrVolumeId req)). intros dataNodes.
  split; [reflexivity|]. split; [|split].
  - rewrite map_map. rewrite <- (map_id (List.filter _ _)) at 2.
    apply map_ext. intros dn. now destruct (mrIsReadonly req).
  - apply Forall_forall. intros e He.
    apply list_elem_of_In, in_map_iff in He as (dn & <- & _).
    now destruct (mrIsReadonly req).
  - intros ->. reflexivity.
Qed.

Lemma VolumeMarkReadonly_marks_addressed_replicas_witness :
  let run := VolumeMarkReadonly Nodes.NewReplicaPlacementFromByte
               Nodes.LoadTTLFromUint32 Sample.ToDiskType Nodes.Lookup
               Sample.ms Nodes.readonly_n2 in
  fst run = (Some EmptyVolumeMarkReadonlyResponse, None)
  /\ map node_of (snd run) = [Nodes.n2]
  /\ snd (VolumeMarkReadonly Nodes.NewReplicaPlacementFromByte
            Nodes.LoadTTLFromUint32 Sample.ToDiskType Nodes.Lookup
            Sample.ms Nodes.readonly_unknown) = [].
Proof.
  destruct (VolumeMarkReadonly_marks_addressed_replicas
              Nodes.NewReplicaPlacementFromByte Nodes.LoadTTLFromUint32
              Sample.ToDiskType Nodes.Lookup Sample.ms Nodes.readonly_n2
              eq_refl) as (H1 & H2 & _).
  destruct (VolumeMarkReadonly_marks_addressed_replicas
              Nodes.NewReplicaPlacementFromByte Nodes.LoadTTLFromUint32
              Sample.ToDiskType Nodes.Lookup Sample.ms Nodes.readonly_unknown
              eq_refl) as (_ & _ & _ & H4).
  split; [exact H1|]. split; [exact H2|]. exact (H4 eq_refl).
Defined.

(** X19. VolumeMarkReadonly reads one byte of ReplicaPlacement and ignores
    the parse error: two requests whose ReplicaPlacement differ by a
    multiple of 256 are handled alike, and a parser that reports an error
    has the same effect as one that returns the same placement without
    error; the layout is looked up under whatever placement came back. *)
Theorem VolumeMarkReadonly_replica_placement_byte
    (parse parse' : Z -> super_block.ReplicaPlacement * option error)
    (LoadTTLFromUint32 : Z -> needle.TTL)
    (ToDiskType : string -> types.DiskType)
    (Lookup : string -> Z -> list DataNode)
    (ms : MasterServer) (req : VolumeMarkReadonlyRequest) (k : Z) :
  (forall b, 0 <= b < 256 -> fst (parse b) = fst (parse' b)) ->
  VolumeMarkReadonly parse LoadTTLFromUint32 ToDiskType Lookup ms
    (with_replica_placement req (mrReplicaPlacement req + 256 * k))
  = VolumeMarkReadonly parse' LoadTTLFromUint32 ToDiskType Lookup ms req.
Proof.
  intros Hp. unfold VolumeMarkReadonly.
  destruct (IsLeader (Topo ms)); cbn [negb]; [|reflexivity].
  cbn [with_replica_placement mrReplicaPlacement mrCollection mrTtl
       mrDiskType mrVolumeId].
  assert (Hb : byte (mrReplicaPlacement req + 256 * k)
               = byte (mrReplicaPlacement req)).
  { unfold byte. change (2 ^ 8) with 256.
    rewrite (Z.mul_comm 256 k). apply Z_mod_plus_full. }
  rewrite Hb.
  specialize (Hp (byte (mrReplicaPlacement req))).
  destruct (parse _) as [rp err], (parse' _) as [rp' err']. cbn [fst] in Hp.
  rewrite Hp by (unfold byte; apply Z.mod_pos_bound; lia).
  f_equal. rewrite !mark_each_filter. reflexivity.
Qed.

Lemma VolumeMarkReadonly_replica_placement_byte_witness :
  VolumeMarkReadonly Nodes.NewReplicaPlacementFromByte Nodes.LoadTTLFromUint32
    Sample.ToDiskType Nodes.Lookup Sample.ms
    (with_replica_placement Nodes.readonly_n2 257)
  = VolumeMarkReadonly Nodes.lenient Nodes.LoadTTLFromUint32
      Sample.ToDiskType Nodes.Lookup Sample.ms Nodes.readonly_n2.
Proof.
  apply (VolumeMarkReadonly_replica_placement_byte
           Nodes.NewReplicaPlacementFromByte Nodes.lenient
           Nodes.LoadTTLFromUint32 Sample.ToDiskType Nodes.Lookup
           Sample.ms Nodes.readonly_n2 1).
  intros b _. reflexivity.
Defined.

(** X20. The response of LookupEcVolume on the leader: for an unknown
    volume it is an empty response together with the not-found error
    naming the volume; for a known one it carries the requested volume id
    and one entry for every shard slot the index yields, in that order and
    empty slots included, each with one location per node built from the
    node's id, public URL and data center, the gRPC port left at zero. *)
Theorem LookupEcVolume_response
    (LookupEcShards : Z -> option (list (Z * list DataNode)))
    (ms : MasterServer) (req : LookupEcVolumeRequest) :
  IsLeader (Topo ms) = true ->
  LookupEcVolume LookupEcShards ms req
  = match LookupEcShards (ecVolumeId req) with
    | None =>
        (Some {| respVolumeId := 0; ShardIdLocations := [] |},
         Some (ErrEcVolumeNotFound (ecVolumeId req)))
    | Some ecLocations =>
        (Some {| respVolumeId := ecVolumeId req;
                 ShardIdLocations :=
                   map (fun p => {| ShardId := GoInt.uint32 (fst p);
                                    ShardLocations := map ec_location (snd p) |})
                     ecLocations |},
         None)
    end.
Proof.
  intros Hl. unfold LookupEcVolume. rewrite Hl. cbn [negb].
  destruct (LookupEcShards (ecVolumeId req)); [|reflexivity].
  now rewrite shard_entries_map.
Qed.

Lemma LookupEcVolume_response_witness :
  LookupEcVolume Nodes.LookupEcShards Sample.ms {| ecVolumeId := 9 |}
  = (Some {| respVolumeId := 9;
             ShardIdLocations :=
               [ {| ShardId := 0; ShardLocations := [ec_location Nodes.n1] |};
                 {| ShardId := 1; ShardLocations := [] |};
                 {| ShardId := 2;
                    ShardLocations := [ec_location Nodes.n1;
                                       ec_location Nodes.n2] |} ] |},
     None).
Proof.
  exact (LookupEcVolume_response Nodes.LookupEcShards Sample.ms
           {| ecVolumeId := 9 |} eq_refl).
Defined.

End ReplicaProofs.
